(** * elysia-openapi: the runtime exclusion store, the document assembler
    and the cache of the spec endpoint

    A shallow embedding of [src/index.ts].  The closure variables of
    [openapi()] ([currentExclude], [totalRoutes], [cachedSchema]) become
    the fields of a state record that every operation threads; JavaScript
    arrays and caller objects live in a heap of references, because the
    plugin copies policy objects with the spread operator and therefore
    shares their arrays with its callers. *)

From Stdlib Require Import Ascii String ZArith.
From stdpp Require Import gmap strings list fin_maps.

Open Scope string_scope.
Open Scope list_scope.

(** ** JavaScript strings *)

Definition lowerChar (c : ascii) : ascii :=
  let n := nat_of_ascii c in
  if (65 <=? n)%nat && (n <=? 90)%nat then ascii_of_nat (n + 32) else c.

(** [String.prototype.toLowerCase] on the ASCII range. *)
Fixpoint toLowerCase (s : string) : string :=
  match s with
  | EmptyString => EmptyString
  | String c rest => String (lowerChar c) (toLowerCase rest)
  end.

(** [s.startsWith(p)]. *)
Definition startsWith (s p : string) : bool := String.prefix p s.

(** [Array.prototype.includes] on an array of strings. *)
Definition includes (l : list string) (x : string) : bool :=
  existsb (String.eqb x) l.

(** ** JSON values

    Operation objects, schema fragments and the documentation fields the
    plugin only passes through are plain JSON. *)

#[local] Unset Elimination Schemes.
Inductive Json : Type :=
  | JNull
  | JBool (b : bool)
  | JNumber (n : Z)
  | JString (s : string)
  | JArray (items : list Json)
  | JObject (fields : list (string * Json)).
#[local] Set Elimination Schemes.

(** ** Exclusion policy *)

(** A reference to a JavaScript array or object. *)
Definition loc := positive.

(** An entry of [exclude.paths]: [string | RegExp].  A [RegExp] is
    compared by [source] and [flags] only, so it is kept as that pair. *)
Inductive PathValue : Type :=
  | PathString (s : string)
  | PathRegExp (source flags : string).

(** [exclude.paths]: one entry, or a reference to an array of entries. *)
Inductive PathsField : Type :=
  | PathsScalar (p : PathValue)
  | PathsArray (a : loc).

#[global] Instance PathValue_eq_dec : EqDecision PathValue.
Proof. solve_decision. Defined.

#[global] Instance PathsField_eq_dec : EqDecision PathsField.
Proof. solve_decision. Defined.

(** [ElysiaOpenAPIConfig['exclude']]: an object whose array fields are
    references into the heap. *)
Module Exclude.
Record t : Type := mk {
  paths : option PathsField;
  tags : option loc;
  methods : option loc
}.
End Exclude.

(** The object literal [{}]. *)
Definition emptyExclude : Exclude.t := Exclude.mk None None None.

#[global] Instance Exclude_inhabited : Inhabited Exclude.t := populate emptyExclude.

(** JavaScript truthiness of a path entry: only the empty string is falsy. *)
Definition truthyPath (p : PathValue) : bool :=
  match p with
  | PathString s => negb (String.eqb s "")
  | PathRegExp _ _ => true
  end.

(** Truthiness of [exclude.paths] once it is defined: arrays are truthy. *)
Definition truthyPaths (f : PathsField) : bool :=
  match f with
  | PathsScalar p => truthyPath p
  | PathsArray _ => true
  end.

(** The callback of [removeExcludedPaths]:
    [p instanceof RegExp && path instanceof RegExp
       ? p.source === path.source && p.flags === path.flags
       : p === path]. *)
Definition samePath (p path : PathValue) : bool :=
  match p, path with
  | PathRegExp s1 f1, PathRegExp s2 f2 => String.eqb s1 s2 && String.eqb f1 f2
  | PathString a, PathString b => String.eqb a b
  | _, _ => false
  end.

(** ** The heap *)

(** Arrays of path entries, arrays of strings, and policy objects held by
    callers.  The plugin never writes into an array, it only replaces one
    array by a new one; writes into an array come from callers that hold a
    reference to it.  References never dangle in JavaScript; a reference
    that was never allocated reads as the empty array (or [{}]). *)
Record Heap : Type := mkHeap {
  pathArrays : gmap loc (list PathValue);
  stringArrays : gmap loc (list string);
  objects : gmap loc Exclude.t
}.

Definition emptyHeap : Heap := mkHeap ∅ ∅ ∅.

Definition readPaths (h : Heap) (a : loc) : list PathValue := pathArrays h !!! a.
Definition readStrings (h : Heap) (a : loc) : list string := stringArrays h !!! a.
Definition readObject (h : Heap) (o : loc) : Exclude.t := objects h !!! o.

(** An array literal [[...]] : a new array at a reference not in use. *)
Definition allocPaths (l : list PathValue) (h : Heap) : loc * Heap :=
  let a := fresh (dom (pathArrays h)) in
  (a, mkHeap (<[a := l]> (pathArrays h)) (stringArrays h) (objects h)).

Definition allocStrings (l : list string) (h : Heap) : loc * Heap :=
  let a := fresh (dom (stringArrays h)) in
  (a, mkHeap (pathArrays h) (<[a := l]> (stringArrays h)) (objects h)).

(** An object literal [{ ...e }]. *)
Definition allocObject (e : Exclude.t) (h : Heap) : loc * Heap :=
  let o := fresh (dom (objects h)) in
  (o, mkHeap (pathArrays h) (stringArrays h) (<[o := e]> (objects h))).

(** The policy as a reader sees it: every array reference followed. *)
Inductive PathsView : Type :=
  | OnePath (p : PathValue)
  | ManyPaths (l : list PathValue).

Module Policy.
Record t : Type := mk {
  paths : option PathsView;
  tags : option (list string);
  methods : option (list string)
}.
End Policy.

Definition viewExclude (h : Heap) (e : Exclude.t) : Policy.t :=
  Policy.mk
    (match Exclude.paths e with
     | None => None
     | Some (PathsScalar p) => Some (OnePath p)
     | Some (PathsArray a) => Some (ManyPaths (readPaths h a))
     end)
    (readStrings h <$> Exclude.tags e)
    (readStrings h <$> Exclude.methods e).

(** ** Routes and documents *)

(** A route of the serving framework, as far as the plugin reads it:
    [route.method], [route.path], [route.hooks.detail.hide],
    [route.hooks.detail.tags] and the rest of the metadata. *)
Module Route.
Record t : Type := mk {
  method : string;
  path : string;
  hide : bool;
  tags : list string;
  detail : Json
}.
End Route.

(** A path-item object: method name to operation object. *)
Abbreviation PathItem := (gmap string Json).

(** [OpenAPIV3.TagObject]. *)
Record Tag : Type := mkTag {
  name : string;
  tagDescription : option string
}.

(** The result of the Schema Converter: [{ paths, components: { schemas } }]. *)
Record Converted : Type := mkConverted {
  convertedPaths : gmap string PathItem;
  convertedSchemas : gmap string Json
}.

(** [documentation.components]: [schemas] and the other component maps. *)
Record StaticComponents : Type := mkStaticComponents {
  staticSchemas : option (gmap string Json);
  staticOtherComponents : gmap string Json
}.

(** The [documentation] option: a partial OpenAPI document. *)
Module Documentation.
Record t : Type := mk {
  openapi : option string;
  info : option (gmap string Json);
  tags : option (list Tag);
  paths : option (gmap string PathItem);
  components : option StaticComponents;
  others : gmap string Json
}.
End Documentation.

(** [documentation = {}]. *)
Definition emptyDocumentation : Documentation.t :=
  Documentation.mk None None None None None ∅.

Record Components : Type := mkComponents {
  schemas : gmap string Json;
  otherComponents : gmap string Json
}.

(** [OpenAPIV3.Document] as [toFullSchema] builds it. *)
Module Document.
Record t : Type := mk {
  openapi : string;
  info : gmap string Json;
  tags : option (list Tag);
  paths : gmap string PathItem;
  components : Components;
  others : gmap string Json
}.
End Document.

(** ** Plugin state *)

(** The closure variables of [openapi()] together with the heap. *)
Record State : Type := mkState {
  heap : Heap;
  currentExclude : option Exclude.t;
  totalRoutes : nat;
  cachedSchema : option Document.t
}.

(** What a call gives back: a value, or a thrown exception. *)
Inductive Outcome (A : Type) : Type :=
  | Returned (a : A)
  | Thrown.
Arguments Returned {A} a.
Arguments Thrown {A}.

(** The options of [openapi({ path, specPath, documentation, exclude })]
    that this development reads. *)
Record Config : Type := mkConfig {
  configPath : string;
  configSpecPath : string;
  documentation : Documentation.t;
  configExclude : option loc
}.

(** [const absolutePath = specPath.startsWith('/') ? specPath : `/${specPath}`] *)
Definition absolutePath (cfg : Config) : string :=
  if startsWith (configSpecPath cfg) "/" then configSpecPath cfg
  else ("/" ++ configSpecPath cfg)%string.

(** The state right after [openapi(cfg)] returned:
    [totalRoutes = 0], [cachedSchema] undefined and
    [currentExclude = exclude ? { ...exclude } : undefined]. *)
Definition initialState (cfg : Config) (h : Heap) : State :=
  mkState h (readObject h <$> configExclude cfg) 0 None.

(** The policy currently in force, as the converter reads it. *)
Definition policy (st : State) : option Policy.t :=
  viewExclude (heap st) <$> currentExclude st.

(** ** Exclusion store *)

Definition invalidateCache (st : State) : State :=
  mkState (heap st) (currentExclude st) 0 None.

(** [setExclusion(newExclude)]: the argument is [undefined] or a
    reference to the caller's object; [{ ...newExclude }] copies its three
    fields, array references included. *)
Definition setExclusion (newExclude : option loc) (st : State) : State :=
  invalidateCache
    (mkState (heap st) (readObject (heap st) <$> newExclude)
       (totalRoutes st) (cachedSchema st)).

Definition addExcludedPaths (vals : list PathValue) (st : State) : State :=
  let e := default emptyExclude (currentExclude st) in
  let currentPaths :=
    match Exclude.paths e with
    | Some (PathsArray a) => readPaths (heap st) a
    | Some (PathsScalar p) => if truthyPath p then [p] else []
    | None => []
    end in
  let '(a, h) := allocPaths (currentPaths ++ vals) (heap st) in
  invalidateCache
    (mkState h
       (Some (Exclude.mk (Some (PathsArray a)) (Exclude.tags e) (Exclude.methods e)))
       (totalRoutes st) (cachedSchema st)).

Definition removeExcludedPaths (vals : list PathValue) (st : State) : State :=
  match currentExclude st with
  | None => st
  | Some e =>
      match Exclude.paths e with
      | None => st
      | Some f =>
          if negb (truthyPaths f) then st
          else
            let currentPaths :=
              match f with
              | PathsArray a => readPaths (heap st) a
              | PathsScalar p => [p]
              end in
            let kept :=
              List.filter
                (fun p => negb (existsb (fun path => samePath p path) vals))
                currentPaths in
            let '(a, h) := allocPaths kept (heap st) in
            invalidateCache
              (mkState h
                 (Some (Exclude.mk (Some (PathsArray a)) (Exclude.tags e)
                          (Exclude.methods e)))
                 (totalRoutes st) (cachedSchema st))
      end
  end.

Definition addExcludedTags (newTags : list string) (st : State) : State :=
  let e := default emptyExclude (currentExclude st) in
  let current := default [] (readStrings (heap st) <$> Exclude.tags e) in
  let '(a, h) := allocStrings (current ++ newTags) (heap st) in
  invalidateCache
    (mkState h
       (Some (Exclude.mk (Exclude.paths e) (Some a) (Exclude.methods e)))
       (totalRoutes st) (cachedSchema st)).

Definition removeExcludedTags (oldTags : list string) (st : State) : State :=
  match currentExclude st with
  | None => st
  | Some e =>
      match Exclude.tags e with
      | None => st
      | Some a0 =>
          let kept :=
            List.filter (fun t => negb (includes oldTags t))
              (readStrings (heap st) a0) in
          let '(a, h) := allocStrings kept (heap st) in
          invalidateCache
            (mkState h
               (Some (Exclude.mk (Exclude.paths e) (Some a) (Exclude.methods e)))
               (totalRoutes st) (cachedSchema st))
      end
  end.

Definition addExcludedMethods (newMethods : list string) (st : State) : State :=
  let e := default emptyExclude (currentExclude st) in
  let current := default [] (readStrings (heap st) <$> Exclude.methods e) in
  let '(a, h) := allocStrings (current ++ newMethods) (heap st) in
  invalidateCache
    (mkState h
       (Some (Exclude.mk (Exclude.paths e) (Exclude.tags e) (Some a)))
       (totalRoutes st) (cachedSchema st)).

Definition removeExcludedMethods (oldMethods : list string) (st : State) : State :=
  match currentExclude st with
  | None => st
  | Some e =>
      match Exclude.methods e with
      | None => st
      | Some a0 =>
          let kept :=
            List.filter (fun m => negb (includes oldMethods m))
              (readStrings (heap st) a0) in
          let '(a, h) := allocStrings kept (heap st) in
          invalidateCache
            (mkState h
               (Some (Exclude.mk (Exclude.paths e) (Exclude.tags e) (Some a)))
               (totalRoutes st) (cachedSchema st))
      end
  end.

(** [getExclusion()]: [currentExclude ? { ...currentExclude } : undefined];
    the copy is a new object that holds the same array references. *)
Definition getExclusion (st : State) : option loc * State :=
  match currentExclude st with
  | None => (None, st)
  | Some e =>
      let '(o, h) := allocObject e (heap st) in
      (Some o, mkState h (currentExclude st) (totalRoutes st) (cachedSchema st))
  end.

(** ** What a caller can do with the references it holds *)

(** Any in-place change of an array of strings the caller holds
    ([push], [pop], [splice], [length = 0], ...). *)
Definition callerWritesStrings (a : loc) (l : list string) (st : State) : State :=
  mkState
    (mkHeap (pathArrays (heap st)) (<[a := l]> (stringArrays (heap st)))
       (objects (heap st)))
    (currentExclude st) (totalRoutes st) (cachedSchema st).

(** Any in-place change of an array of path entries the caller holds. *)
Definition callerWritesPaths (a : loc) (l : list PathValue) (st : State) : State :=
  mkState
    (mkHeap (<[a := l]> (pathArrays (heap st))) (stringArrays (heap st))
       (objects (heap st)))
    (currentExclude st) (totalRoutes st) (cachedSchema st).

(** Assignments to the fields of an object the caller holds
    ([obj.paths = ...], [obj.tags = ...], [delete obj.methods]). *)
Definition callerAssigns (o : loc) (e : Exclude.t) (st : State) : State :=
  mkState
    (mkHeap (pathArrays (heap st)) (stringArrays (heap st))
       (<[o := e]> (objects (heap st))))
    (currentExclude st) (totalRoutes st) (cachedSchema st).

(** ** Route filter and schema converter *)

(** Modelled from the spec: the translation of a route path into a
    path-item key, part of [./openapi], which is not among the sources.
    A segment [:name] becomes [{name}]. *)
Fixpoint bracePath (inParam atStart : bool) (s : string) : string :=
  match s with
  | EmptyString => if inParam then "}" else ""
  | String c rest =>
      if Ascii.eqb c "/" then
        ((if inParam then "}/" else "/") ++ bracePath false true rest)%string
      else if atStart && Ascii.eqb c ":" then
        String "{" (bracePath true false rest)
      else String c (bracePath inParam false rest)
  end.

(** Modelled from the spec: the path-item key of a route path (see
    [bracePath]; the function of [./openapi] is missing). *)
Definition toOpenAPIPath (p : string) : string := bracePath false true p.

Section Plugin.

(** [new RegExp(source, flags).test(s)], the regular-expression engine of
    the runtime. *)
Variable regexTest : string -> string -> string -> bool.

(** The per-route work the converter delegates to the external
    type-to-schema converter (header injection and the schema transform
    hook included): the operation object and the named component schemas
    of a route, or an exception. *)
Variable convertRoute : Route.t -> Outcome (Json * list (string * Json)).

Variable cfg : Config.

(** Modelled from the spec: the reserved prefixes of the Route Filter
    ([./openapi] is missing), the paths the documentation page and the
    spec endpoint are served at. *)
Definition reservedPrefixes : list string := [configPath cfg; absolutePath cfg].

(** Modelled from the spec: whether one entry of [exclude.paths] matches
    a route path ([./openapi] is missing). *)
Definition pathMatches (routePath : string) (entry : PathValue) : bool :=
  match entry with
  | PathString s => String.eqb s routePath
  | PathRegExp source flags => regexTest source flags routePath
  end.

(** Modelled from the spec: [exclude.paths] as a sequence of entries, a
    single value counting as a sequence of one. *)
Definition pathEntries (p : option Policy.t) : list PathValue :=
  match p ≫= Policy.paths with
  | None => []
  | Some (OnePath e) => [e]
  | Some (ManyPaths l) => l
  end.

(** Modelled from the spec: the first test of the Route Filter
    ([./openapi] is missing), the route path falls under a reserved
    prefix. *)
Definition selfExcluded (r : Route.t) : bool :=
  existsb (startsWith (Route.path r)) reservedPrefixes.

(** Modelled from the spec: the path test of the Route Filter
    ([./openapi] is missing), some entry matches the route path. *)
Definition pathExcluded (r : Route.t) (p : option Policy.t) : bool :=
  existsb (pathMatches (Route.path r)) (pathEntries p).

(** Modelled from the spec: the tag test of the Route Filter
    ([./openapi] is missing), some tag of the route is in [exclude.tags]. *)
Definition tagExcluded (r : Route.t) (p : option Policy.t) : bool :=
  match p ≫= Policy.tags with
  | None => false
  | Some excluded => existsb (includes excluded) (Route.tags r)
  end.

(** Modelled from the spec: the method test of the Route Filter
    ([./openapi] is missing), the route method is in [exclude.methods],
    letter case apart. *)
Definition methodExcluded (r : Route.t) (p : option Policy.t) : bool :=
  match p ≫= Policy.methods with
  | None => false
  | Some excluded =>
      existsb (fun m => String.eqb (toLowerCase m) (toLowerCase (Route.method r)))
        excluded
  end.

(** Modelled from the spec: the Route Filter of [./openapi], which is not
    among the sources.  [true] means the route appears in the document.
    The five tests run in the order of section 4.2 and the first one that
    excludes the route ends the evaluation. *)
Definition routeFilter (r : Route.t) (p : option Policy.t) : bool :=
  if selfExcluded r then false
  else if Route.hide r then false
  else if pathExcluded r p then false
  else if tagExcluded r p then false
  else if methodExcluded r p then false
  else true.

(** Modelled from the spec: how the converter of [./openapi] (missing)
    merges one operation into the path map,
    [paths[key] = { ...paths[key], [method]: operation }]. *)
Definition addOperation (key m : string) (op : Json)
    (ps : gmap string PathItem) : gmap string PathItem :=
  <[key := <[m := op]> (default ∅ (ps !! key))]> ps.

(** Modelled from the spec: the loop of the Schema Converter
    ([toOpenAPISchema] of [./openapi], which is not among the sources).
    Routes are visited in registration order; a route the filter accepts
    is converted and merged into the path item of its key under its
    lower-cased method, a later route overwriting an earlier one; named
    schemas are collected once per name.  A failing conversion ends the
    build with the exception. *)
Fixpoint convertRoutes (routes : list Route.t) (p : option Policy.t)
    (acc : Converted) : Outcome Converted :=
  match routes with
  | [] => Returned acc
  | r :: rest =>
      if routeFilter r p then
        match convertRoute r with
        | Thrown => Thrown
        | Returned (op, defs) =>
            convertRoutes rest p
              (mkConverted
                 (addOperation (toOpenAPIPath (Route.path r))
                    (toLowerCase (Route.method r)) op (convertedPaths acc))
                 (convertedSchemas acc ∪ list_to_map defs))
        end
      else convertRoutes rest p acc
  end.

(** Modelled from the spec: [toOpenAPISchema(app, exclude, ...)] of
    [./openapi], which is not among the sources. *)
Definition toOpenAPISchema (routes : list Route.t) (p : option Policy.t)
    : Outcome Converted :=
  convertRoutes routes p (mkConverted ∅ ∅).

(** ** Document assembler *)

Definition defaultInfo : gmap string Json :=
  <["title" := JString "Elysia Documentation"]>
    (<["description" := JString "Development documentation"]>
       (<["version" := JString "0.0.0"]> ∅)).

(** The [tags] field of the document:
    [!currentExclude?.tags ? documentation.tags
       : documentation.tags?.filter((tag) => !currentExclude.tags?.includes(tag.name))]. *)
Definition documentTags (st : State) : option (list Tag) :=
  match currentExclude st ≫= Exclude.tags with
  | None => Documentation.tags (documentation cfg)
  | Some a =>
      List.filter (fun tag => negb (includes (readStrings (heap st) a) (name tag)))
        <$> Documentation.tags (documentation cfg)
  end.

(** [toFullSchema({ paths, components: { schemas } })].  An object spread
    [{ ...a, ...b }] is the union in which [b] wins, [b ∪ a]. *)
Definition toFullSchema (conv : Converted) (st : State) : Document.t * State :=
  let d := documentation cfg in
  let doc :=
    Document.mk
      (default "3.0.3" (Documentation.openapi d))
      (default ∅ (Documentation.info d) ∪ defaultInfo)
      (documentTags st)
      (default ∅ (Documentation.paths d) ∪ convertedPaths conv)
      (mkComponents
         (default ∅ (Documentation.components d ≫= staticSchemas)
            ∪ convertedSchemas conv)
         (default ∅ (staticOtherComponents <$> Documentation.components d)))
      (Documentation.others d) in
  (doc, mkState (heap st) (currentExclude st) (totalRoutes st) (Some doc)).

(** ** Cache controller *)

(** [totalRoutes === app.routes.length && cachedSchema]. *)
Definition cacheHit (liveRoutes : nat) (st : State) : option Document.t :=
  if (totalRoutes st =? liveRoutes)%nat then cachedSchema st else None.

(** The second half of the handler:
    [totalRoutes = app.routes.length
     return toFullSchema(toOpenAPISchema(app, currentExclude, ...))]. *)
Definition rebuild (routes : list Route.t) (st : State)
    : Outcome Document.t * State :=
  let st1 :=
    mkState (heap st) (currentExclude st) (length routes) (cachedSchema st) in
  match toOpenAPISchema routes (policy st1) with
  | Thrown => (Thrown, st1)
  | Returned conv =>
      let '(doc, st2) := toFullSchema conv st1 in (Returned doc, st2)
  end.

(** The handler of the spec endpoint; [routes] is [app.routes] at the
    time of the request. *)
Definition openAPISchema (routes : list Route.t) (st : State)
    : Outcome Document.t * State :=
  match cacheHit (length routes) st with
  | Some doc => (Returned doc, st)
  | None => rebuild routes st
  end.

End Plugin.

(** ** The documentation page *)

Section Page.

Variable regexTest : string -> string -> string -> bool.
Variable convertRoute : Route.t -> Outcome (Json * list (string * Json)).
Variable cfg : Config.

(** The argument of [JSON.stringify] in [page()] when [embedSpec] is set:
    [totalRoutes === parentApp.routes.length
       ? cachedSchema
       : toFullSchema(toOpenAPISchema(parentApp, currentExclude, ...))].
    [routes] is [parentApp.routes] at the time of the call; [None] is
    [undefined], for which [JSON.stringify] gives [undefined] and the page
    embeds nothing. *)
Definition embeddedSpec (routes : list Route.t) (st : State)
    : Outcome (option Document.t) * State :=
  if (totalRoutes st =? length routes)%nat then (Returned (cachedSchema st), st)
  else
    match toOpenAPISchema regexTest convertRoute cfg routes (policy st) with
    | Thrown => (Thrown, st)
    | Returned conv =>
        let '(doc, st') := toFullSchema cfg conv st in (Returned (Some doc), st')
    end.

End Page.

(** ** The runtime control surface *)

(** A call of one of the mutators of [OpenAPIMethods]. *)
Inductive Mutator : Type :=
  | SetExclusion (newExclude : option loc)
  | AddExcludedPaths (vals : list PathValue)
  | RemoveExcludedPaths (vals : list PathValue)
  | AddExcludedTags (newTags : list string)
  | RemoveExcludedTags (oldTags : list string)
  | AddExcludedMethods (newMethods : list string)
  | RemoveExcludedMethods (oldMethods : list string).

Definition call (m : Mutator) (st : State) : State :=
  match m with
  | SetExclusion e => setExclusion e st
  | AddExcludedPaths l => addExcludedPaths l st
  | RemoveExcludedPaths l => removeExcludedPaths l st
  | AddExcludedTags l => addExcludedTags l st
  | RemoveExcludedTags l => removeExcludedTags l st
  | AddExcludedMethods l => addExcludedMethods l st
  | RemoveExcludedMethods l => removeExcludedMethods l st
  end.

(** The guard of a removal, [!currentExclude?.paths] (and likewise for
    tags and methods), read as "there is a list to remove from"; every
    other mutator has no guard. *)
Definition passesGuard (m : Mutator) (st : State) : bool :=
  match m with
  | RemoveExcludedPaths _ =>
      match currentExclude st ≫= Exclude.paths with
      | Some f => truthyPaths f
      | None => false
      end
  | RemoveExcludedTags _ => bool_decide (is_Some (currentExclude st ≫= Exclude.tags))
  | RemoveExcludedMethods _ =>
      bool_decide (is_Some (currentExclude st ≫= Exclude.methods))
  | _ => true
  end.

(** ** Readers used in the statements *)

(** The operation a path map holds for a key and a method. *)
Definition operationAt (ps : gmap string PathItem) (key m : string) : option Json :=
  ps !! key ≫= (fun item => item !! m).

(** The excluded tags and methods in force, [[]] when the field is absent. *)
Definition tagList (st : State) : list string :=
  default [] (policy st ≫= Policy.tags).

Definition methodList (st : State) : list string :=
  default [] (policy st ≫= Policy.methods).

(** The cache is FRESH for a given live route count when the handler
    would answer from it, and STALE otherwise. *)
Definition cacheFresh (liveRoutes : nat) (st : State) : bool :=
  bool_decide (is_Some (cacheHit liveRoutes st)).

(** The list [addExcludedPaths] appends to, its local [currentPaths]:
    [Array.isArray(currentExclude.paths) ? currentExclude.paths
       : currentExclude.paths ? [currentExclude.paths] : []]. *)
Definition currentPaths (st : State) : list PathValue :=
  match currentExclude st ≫= Exclude.paths with
  | Some (PathsArray a) => readPaths (heap st) a
  | Some (PathsScalar p) => if truthyPath p then [p] else []
  | None => []
  end.

(** Chained calls, [openapi.addExcludedTags(...).removeExcludedPaths(...)]:
    every mutator returns [openapiMethods]. *)
Definition chain (ms : list Mutator) (st : State) : State :=
  foldl (fun s m => call m s) st ms.

(** The list a mutator works on; [setExclusion] works on all three. *)
Inductive Dimension : Type := Paths | Tags | Methods.

#[global] Instance Dimension_eq_dec : EqDecision Dimension.
Proof. solve_decision. Defined.

Definition dimensionOf (m : Mutator) : option Dimension :=
  match m with
  | SetExclusion _ => None
  | AddExcludedPaths _ | RemoveExcludedPaths _ => Some Paths
  | AddExcludedTags _ | RemoveExcludedTags _ => Some Tags
  | AddExcludedMethods _ | RemoveExcludedMethods _ => Some Methods
  end.

(** The three exclusion lists in force, side by side. *)
Definition exclusionLists (st : State)
    : list PathValue * list string * list string :=
  (pathEntries (policy st), tagList st, methodList st).

(** The tag list of the document assembled in a state, [[]] when the
    document has none. *)
Definition assembledTags (cfg : Config) (conv : Converted) (st : State) : list Tag :=
  default [] (Document.tags (fst (toFullSchema cfg conv st))).

(** Every array a policy object points to has been allocated. *)
Definition excludeAllocated (h : Heap) (e : Exclude.t) : Prop :=
  (∀ a, Exclude.paths e = Some (PathsArray a) → a ∈ dom (pathArrays h))
  ∧ (∀ a, Exclude.tags e = Some a → a ∈ dom (stringArrays h))
  ∧ (∀ a, Exclude.methods e = Some a → a ∈ dom (stringArrays h)).

(** The invariant of a running program: the policy in force and the
    policy objects of the callers only point to allocated arrays. *)
Definition wellFormed (st : State) : Prop :=
  (∀ e, currentExclude st = Some e → excludeAllocated (heap st) e)
  ∧ (∀ o e, objects (heap st) !! o = Some e → excludeAllocated (heap st) e).

(** ** Worked data: the scenario of the example server *)

(** A stand-in for the regular-expression engine in the worked examples:
    a pattern matches the paths that start with its source. *)
Definition prefixEngine (source flags s : string) : bool := startsWith s source.

(** A converter that documents a route by its path and never throws. *)
Definition plainConvert (r : Route.t) : Outcome (Json * list (string * Json)) :=
  Returned (JObject [("operationId", JString (Route.path r))], []).

(** A converter that throws on the route [/broken]. *)
Definition brittleConvert (r : Route.t) : Outcome (Json * list (string * Json)) :=
  if String.eqb (Route.path r) "/broken" then Thrown else plainConvert r.

(** A converter that always throws. *)
Definition failingConvert (r : Route.t) : Outcome (Json * list (string * Json)) :=
  Thrown.

Definition get (p : string) (routeTags : list string) : Route.t :=
  Route.mk "GET" p false routeTags JNull.

(** The routes of [example/dynamic-exclusion.ts], with the two routes the
    plugin registers for itself. *)
Definition sampleRoutes : list Route.t :=
  [ Route.mk "GET" "/openapi" true [] JNull;
    Route.mk "GET" "/openapi/json" true [] JNull;
    get "/" [];
    get "/users" ["users"];
    get "/admin" ["admin"];
    get "/internal" [];
    get "/health" [] ].

(** The caller's heap for [{ paths: ['/internal'], tags: ['admin'] }]:
    both arrays and the object sit at reference 1 of their store. *)
Definition sampleHeap : Heap :=
  snd (allocObject (Exclude.mk (Some (PathsArray 1%positive)) (Some 1%positive) None)
         (snd (allocStrings ["admin"]
                 (snd (allocPaths [PathString "/internal"] emptyHeap))))).

Definition sampleConfig : Config :=
  mkConfig "/openapi" "/openapi/json" emptyDocumentation (Some 1%positive).

Definition sampleState : State := initialState sampleConfig sampleHeap.

(** The plugin after the spec endpoint answered once: the cache is FRESH. *)
Definition sampleFresh : State :=
  snd (openAPISchema prefixEngine plainConvert sampleConfig sampleRoutes sampleState).

(** A plugin configured with [exclude: { paths: '' }], a single scalar
    entry that is the empty string. *)
Definition emptyScalarState : State :=
  initialState (mkConfig "/openapi" "/openapi/json" emptyDocumentation (Some 1%positive))
    (snd (allocObject (Exclude.mk (Some (PathsScalar (PathString ""))) None None)
            emptyHeap)).

(** A plugin configured with [exclude: { paths: '/x' }], a single scalar
    entry. *)
Definition scalarState : State :=
  initialState (mkConfig "/openapi" "/openapi/json" emptyDocumentation (Some 1%positive))
    (snd (allocObject (Exclude.mk (Some (PathsScalar (PathString "/x"))) None None)
            emptyHeap)).

(** The document a read answers with, if it answers. *)
Definition servedDocument (o : Outcome Document.t * State) : option Document.t :=
  match fst o with
  | Returned d => Some d
  | Thrown => None
  end.

(** The document of that first read. *)
Definition sampleDocument : Document.t :=
  default (fst (toFullSchema sampleConfig (mkConverted ∅ ∅) sampleState))
    (cachedSchema sampleFresh).

(** One more route is registered later, one the converter cannot handle. *)
Definition grownRoutes : list Route.t := sampleRoutes ++ [get "/broken" []].

(** The caller keeps the object it passes to [setExclusion] (reference 1
    of [sampleHeap]) and with it the arrays the object points to. *)
Definition callerState : State :=
  setExclusion (Some 1%positive) (mkState sampleHeap None 0 None).

(** The same plugin with a static documentation that declares the path
    [/internal] with a [get] operation and the path [/health] with no
    operation at all. *)
Definition staticPathsConfig : Config :=
  mkConfig "/openapi" "/openapi/json"
    (Documentation.mk None None None
       (Some (<["/internal" := {[ "get" := JString "static" ]}]>
                (<["/health" := ∅]> ∅)))
       None ∅)
    (Some 1%positive).

(** ** Proof automation *)

(** Unfolds allocations and reads, and reads back what was just written. *)
Ltac heap_simpl :=
  repeat (unfold allocStrings, allocPaths, allocObject, readStrings, readPaths,
            readObject; simpl);
  rewrite ?lookup_total_insert_eq.

(** The mutators are unfolded by name only. *)
#[local] Arguments setExclusion : simpl never.
#[local] Arguments addExcludedPaths : simpl never.
#[local] Arguments removeExcludedPaths : simpl never.
#[local] Arguments addExcludedTags : simpl never.
#[local] Arguments removeExcludedTags : simpl never.
#[local] Arguments addExcludedMethods : simpl never.
#[local] Arguments removeExcludedMethods : simpl never.

(** * Properties *)

(** ** The heap *)

Lemma readPaths_allocPaths (l : list PathValue) (h : Heap) :
  readPaths (snd (allocPaths l h)) (fst (allocPaths l h)) = l.
Proof. unfold readPaths, allocPaths; simpl. apply lookup_total_insert_eq. Qed.

Lemma readStrings_allocStrings (l : list string) (h : Heap) :
  readStrings (snd (allocStrings l h)) (fst (allocStrings l h)) = l.
Proof. unfold readStrings, allocStrings; simpl. apply lookup_total_insert_eq. Qed.

Lemma readObject_allocObject (e : Exclude.t) (h : Heap) :
  readObject (snd (allocObject e h)) (fst (allocObject e h)) = e.
Proof. unfold readObject, allocObject; simpl. apply lookup_total_insert_eq. Qed.

Lemma allocPaths_fresh (l : list PathValue) (h : Heap) :
  fst (allocPaths l h) ∉ dom (pathArrays h).
Proof. apply is_fresh. Qed.

Lemma allocStrings_fresh (l : list string) (h : Heap) :
  fst (allocStrings l h) ∉ dom (stringArrays h).
Proof. apply is_fresh. Qed.

Lemma allocObject_fresh (e : Exclude.t) (h : Heap) :
  fst (allocObject e h) ∉ dom (objects h).
Proof. apply is_fresh. Qed.

Lemma allocPaths_allocated (l : list PathValue) (h : Heap) :
  fst (allocPaths l h) ∈ dom (pathArrays (snd (allocPaths l h))).
Proof. unfold allocPaths; simpl. rewrite dom_insert_L. set_solver. Qed.

Lemma allocStrings_allocated (l : list string) (h : Heap) :
  fst (allocStrings l h) ∈ dom (stringArrays (snd (allocStrings l h))).
Proof. unfold allocStrings; simpl. rewrite dom_insert_L. set_solver. Qed.

(** ** Membership in JavaScript arrays *)

Lemma includes_true (l : list string) (x : string) : includes l x = true ↔ x ∈ l.
Proof.
  unfold includes. rewrite existsb_exists. split.
  - intros (y & Hy & Heq). apply String.eqb_eq in Heq. subst y.
    by apply list_elem_of_In.
  - intros Hx. exists x. split; [by apply list_elem_of_In | apply String.eqb_refl].
Qed.

Lemma includes_false (l : list string) (x : string) : includes l x = false ↔ x ∉ l.
Proof.
  rewrite <- includes_true. destruct (includes l x); split; intros; congruence.
Qed.

Lemma samePath_refl (p : PathValue) : samePath p p = true.
Proof. destruct p; simpl; by rewrite ?String.eqb_refl. Qed.

(** An element equal to one of [vals] does not survive the removal
    callback; a list none of whose entries equals one of [vals] survives
    whole. *)
Lemma filter_samePath_self (vals : list PathValue) :
  ∀ l, (∀ p, p ∈ l → p ∈ vals) →
  List.filter (fun p => negb (existsb (fun v => samePath p v) vals)) l = [].
Proof.
  induction l as [| p l IH]; intros Hsub; simpl; [done |].
  assert (Hp : existsb (fun v => samePath p v) vals = true).
  { apply existsb_exists. exists p. split; [| apply samePath_refl].
    apply list_elem_of_In, Hsub. left. }
  rewrite Hp. simpl. apply IH. intros q Hq. apply Hsub. by right.
Qed.

Lemma filter_samePath_none (vals : list PathValue) :
  ∀ l, (∀ p v, p ∈ l → v ∈ vals → samePath p v = false) →
  List.filter (fun p => negb (existsb (fun v => samePath p v) vals)) l = l.
Proof.
  induction l as [| p l IH]; intros Hno; simpl; [done |].
  assert (Hp : existsb (fun v => samePath p v) vals = false).
  { apply not_true_is_false. intros (v & Hv & Hsame)%existsb_exists.
    rewrite (Hno p v) in Hsame; [done | left | by apply list_elem_of_In]. }
  rewrite Hp. simpl. f_equal. apply IH. intros q v Hq Hv. apply Hno; [by right | done].
Qed.

(** [Array.prototype.filter] keeps a subsequence. *)
Lemma filter_sublist {A : Type} (f : A → bool) (l : list A) :
  sublist (List.filter f l) l.
Proof.
  induction l as [| x l IH]; simpl; [constructor |].
  destruct (f x); by constructor.
Qed.

Lemma elem_of_filter_bool {A : Type} (f : A → bool) (l : list A) (x : A) :
  x ∈ List.filter f l ↔ x ∈ l ∧ f x = true.
Proof. rewrite !list_elem_of_In. apply filter_In. Qed.

(** ** The exclusion store, one dimension at a time *)

Lemma truthyPath_false (p : PathValue) : truthyPath p = false ↔ p = PathString "".
Proof.
  destruct p as [s | src fl]; simpl; [| split; discriminate].
  rewrite negb_false_iff, String.eqb_eq. split; [by intros -> | by intros [= ->]].
Qed.

Lemma tagList_addExcludedTags (l : list string) (st : State) :
  tagList (addExcludedTags l st) = tagList st ++ l.
Proof.
  unfold tagList, policy, addExcludedTags. heap_simpl.
  destruct (currentExclude st) as [e |]; simpl; [| done].
  by destruct (Exclude.tags e).
Qed.

Lemma tagList_removeExcludedTags (l : list string) (st : State) :
  tagList (removeExcludedTags l st)
  = List.filter (fun t => negb (includes l t)) (tagList st).
Proof.
  unfold tagList, policy, removeExcludedTags.
  destruct (currentExclude st) as [e |] eqn:He; simpl; [| by rewrite He].
  destruct (Exclude.tags e) as [a0 |] eqn:Ht; simpl.
  - by heap_simpl.
  - by rewrite He; simpl; rewrite Ht.
Qed.

Lemma methodList_addExcludedMethods (l : list string) (st : State) :
  methodList (addExcludedMethods l st) = methodList st ++ l.
Proof.
  unfold methodList, policy, addExcludedMethods. heap_simpl.
  destruct (currentExclude st) as [e |]; simpl; [| done].
  by destruct (Exclude.methods e).
Qed.

Lemma methodList_removeExcludedMethods (l : list string) (st : State) :
  methodList (removeExcludedMethods l st)
  = List.filter (fun m => negb (includes l m)) (methodList st).
Proof.
  unfold methodList, policy, removeExcludedMethods.
  destruct (currentExclude st) as [e |] eqn:He; simpl; [| by rewrite He].
  destruct (Exclude.methods e) as [a0 |] eqn:Ht; simpl.
  - by heap_simpl.
  - by rewrite He; simpl; rewrite Ht.
Qed.

Lemma elem_of_removed (l old : list string) (x : string) :
  x ∈ List.filter (fun t => negb (includes l t)) old ↔ x ∈ old ∧ x ∉ l.
Proof.
  rewrite elem_of_filter_bool, negb_true_iff, includes_false. done.
Qed.

(** C7, as the code has it.  [addExcludedTags] and [addExcludedMethods]
    append their arguments to the list in force and keep every duplicate,
    so the members of the result are those of the union;
    [removeExcludedTags] and [removeExcludedMethods] keep, in their
    original order, exactly the entries that are none of the given
    strings, so every occurrence of a given string goes and nothing else
    does. *)
Theorem C7_tags_methods_append_and_filter (l : list string) (st : State) :
  (tagList (addExcludedTags l st) = tagList st ++ l
   ∧ ∀ t, t ∈ tagList (addExcludedTags l st) ↔ t ∈ tagList st ∨ t ∈ l)
  ∧ (tagList (removeExcludedTags l st)
       = List.filter (fun t => negb (includes l t)) (tagList st)
     ∧ (∀ t, t ∈ tagList (removeExcludedTags l st) ↔ t ∈ tagList st ∧ t ∉ l)
     ∧ sublist (tagList (removeExcludedTags l st)) (tagList st))
  ∧ (methodList (addExcludedMethods l st) = methodList st ++ l
     ∧ ∀ m, m ∈ methodList (addExcludedMethods l st) ↔ m ∈ methodList st ∨ m ∈ l)
  ∧ (methodList (removeExcludedMethods l st)
       = List.filter (fun m => negb (includes l m)) (methodList st)
     ∧ (∀ m, m ∈ methodList (removeExcludedMethods l st)
             ↔ m ∈ methodList st ∧ m ∉ l)
     ∧ sublist (methodList (removeExcludedMethods l st)) (methodList st)).
Proof.
  rewrite tagList_addExcludedTags, tagList_removeExcludedTags,
    methodList_addExcludedMethods, methodList_removeExcludedMethods.
  split_and!; try done; try apply filter_sublist;
    intros x; by rewrite ?elem_of_app, ?elem_of_removed.
Qed.

Lemma pathEntries_addExcludedPaths (vals : list PathValue) (st : State) :
  currentExclude st ≫= Exclude.paths ≠ Some (PathsScalar (PathString "")) →
  pathEntries (policy (addExcludedPaths vals st)) = pathEntries (policy st) ++ vals.
Proof.
  intros Hne. unfold pathEntries, policy, addExcludedPaths. heap_simpl.
  destruct (currentExclude st) as [e |]; simpl in *; [| done].
  destruct (Exclude.paths e) as [[p | a] |]; simpl; try done.
  destruct (truthyPath p) eqn:Hp; [done |].
  apply truthyPath_false in Hp. by subst p.
Qed.

Lemma pathEntries_removeExcludedPaths (vals : list PathValue) (st : State) :
  currentExclude st ≫= Exclude.paths ≠ Some (PathsScalar (PathString "")) →
  pathEntries (policy (removeExcludedPaths vals st))
  = List.filter (fun p => negb (existsb (fun v => samePath p v) vals))
      (pathEntries (policy st)).
Proof.
  intros Hne. unfold pathEntries, policy, removeExcludedPaths.
  destruct (currentExclude st) as [e |] eqn:He; simpl in *; [| by rewrite He].
  destruct (Exclude.paths e) as [[p | a] |] eqn:Hpaths; simpl.
  - destruct (truthyPath p) eqn:Hp; simpl.
    + by heap_simpl.
    + apply truthyPath_false in Hp. by subst p.
  - by heap_simpl.
  - by rewrite He; simpl; rewrite Hpaths.
Qed.

Lemma policy_tags_addExcludedPaths (vals : list PathValue) (st : State) :
  policy (addExcludedPaths vals st) ≫= Policy.tags = policy st ≫= Policy.tags
  ∧ policy (addExcludedPaths vals st) ≫= Policy.methods = policy st ≫= Policy.methods.
Proof.
  unfold policy, addExcludedPaths. heap_simpl.
  by destruct (currentExclude st) as [e |].
Qed.

Lemma policy_tags_removeExcludedPaths (vals : list PathValue) (st : State) :
  policy (removeExcludedPaths vals st) ≫= Policy.tags = policy st ≫= Policy.tags
  ∧ policy (removeExcludedPaths vals st) ≫= Policy.methods
    = policy st ≫= Policy.methods.
Proof.
  unfold policy, removeExcludedPaths.
  destruct (currentExclude st) as [e |] eqn:He; simpl; [| by rewrite He].
  destruct (Exclude.paths e) as [f |] eqn:Hpaths; simpl; [| by rewrite He].
  destruct (truthyPaths f); simpl; [| by rewrite He].
  by heap_simpl.
Qed.

(** C8 at the input that breaks it.  With [exclude: { paths: '' }] the
    policy holds one scalar entry, the empty string; the test
    [currentExclude.paths ? [currentExclude.paths] : []] of
    [addExcludedPaths] reads the empty string as absent, so the list after
    [addExcludedPaths('/a')] is [['/a']] and the prior entry is gone. *)
Theorem C8_addExcludedPaths_drops_empty_scalar :
  pathEntries (policy emptyScalarState) = [PathString ""]
  ∧ pathEntries (policy (addExcludedPaths [PathString "/a"] emptyScalarState))
    = [PathString "/a"].
Proof. split; vm_compute; reflexivity. Qed.

(** Every mutator that passes its guard invalidates the cache, and a
    removal that does not pass it changes nothing at all. *)
Lemma call_invalidates_or_skips (m : Mutator) (st : State) :
  if passesGuard m st
  then cachedSchema (call m st) = None ∧ totalRoutes (call m st) = 0
  else call m st = st.
Proof.
  destruct m as [e0 | vals | vals | l | l | l | l]; simpl.
  - done.
  - unfold addExcludedPaths. by heap_simpl.
  - unfold removeExcludedPaths.
    destruct (currentExclude st) as [e |]; simpl; [| done].
    destruct (Exclude.paths e) as [f |]; simpl; [| done].
    destruct (truthyPaths f); simpl; [| done]. by heap_simpl.
  - unfold addExcludedTags. by heap_simpl.
  - unfold removeExcludedTags.
    destruct (currentExclude st) as [e |]; simpl; [| done].
    destruct (Exclude.tags e) as [a |]; simpl; [| done]. by heap_simpl.
  - unfold addExcludedMethods. by heap_simpl.
  - unfold removeExcludedMethods.
    destruct (currentExclude st) as [e |]; simpl; [| done].
    destruct (Exclude.methods e) as [a |]; simpl; [| done]. by heap_simpl.
Qed.

(** C5, as the code has it.  What decides whether a removal touches the
    cache is its guard, not whether a value matches: when the policy or
    the list of that dimension is absent the call returns at once and the
    whole state (policy, cached document, route counter) is unchanged;
    when a list is there the call ends in [invalidateCache()], so the
    cached document is dropped and the counter is 0 whatever the given
    values are. *)
Theorem C5_removal_touches_cache_iff_list_configured
    (vals : list PathValue) (l : list string) (st : State) :
  (if passesGuard (RemoveExcludedPaths vals) st
   then cachedSchema (removeExcludedPaths vals st) = None
        ∧ totalRoutes (removeExcludedPaths vals st) = 0
   else removeExcludedPaths vals st = st)
  ∧ (if passesGuard (RemoveExcludedTags l) st
     then cachedSchema (removeExcludedTags l st) = None
          ∧ totalRoutes (removeExcludedTags l st) = 0
     else removeExcludedTags l st = st)
  ∧ (if passesGuard (RemoveExcludedMethods l) st
     then cachedSchema (removeExcludedMethods l st) = None
          ∧ totalRoutes (removeExcludedMethods l st) = 0
     else removeExcludedMethods l st = st).
Proof.
  split_and!.
  - apply (call_invalidates_or_skips (RemoveExcludedPaths vals)).
  - apply (call_invalidates_or_skips (RemoveExcludedTags l)).
  - apply (call_invalidates_or_skips (RemoveExcludedMethods l)).
Qed.

(** C5 as stated fails.  The cache of [sampleFresh] holds a document for
    seven routes and the tag list is [['admin']]; [removeExcludedTags('zzz')]
    finds nothing to remove and leaves the list as it was, yet the cached
    document is dropped and the counter is back to 0. *)
Lemma C5_no_match_still_invalidates :
  tagList sampleFresh = ["admin"]
  ∧ tagList (removeExcludedTags ["zzz"] sampleFresh) = ["admin"]
  ∧ is_Some (cachedSchema sampleFresh)
  ∧ totalRoutes sampleFresh = 7
  ∧ cachedSchema (removeExcludedTags ["zzz"] sampleFresh) = None
  ∧ totalRoutes (removeExcludedTags ["zzz"] sampleFresh) = 0.
Proof.
  split_and!; try (vm_compute; reflexivity).
  assert (H : bool_decide (is_Some (cachedSchema sampleFresh)) = true)
    by (vm_compute; reflexivity).
  by apply bool_decide_eq_true in H.
Qed.

(** C7 as stated fails.  Adding a tag that is already excluded keeps both
    copies. *)
Lemma C7_add_keeps_duplicates :
  tagList sampleState = ["admin"]
  ∧ tagList (addExcludedTags ["admin"] sampleState) = ["admin"; "admin"]
  ∧ ¬ NoDup (tagList (addExcludedTags ["admin"] sampleState)).
Proof.
  split_and!; try (vm_compute; reflexivity).
  assert (H : tagList (addExcludedTags ["admin"] sampleState) = ["admin"; "admin"])
    by (vm_compute; reflexivity).
  rewrite H. intros Hnd. apply NoDup_cons in Hnd as [Hin _].
  apply Hin. left.
Qed.

(** ** Adding nothing *)

Lemma addExcludedPaths_fresh_array (vals : list PathValue) (st : State) :
  ∃ a, (currentExclude (addExcludedPaths vals st) ≫= Exclude.paths) = Some (PathsArray a)
       ∧ (a ∉ dom (pathArrays (heap st)))
       ∧ a ∈ dom (pathArrays (heap (addExcludedPaths vals st)))
       ∧ readPaths (heap (addExcludedPaths vals st)) a = currentPaths st ++ vals.
Proof.
  exists (fresh (dom (pathArrays (heap st)))).
  unfold currentPaths, addExcludedPaths. heap_simpl. split_and!.
  - done.
  - apply is_fresh.
  - rewrite dom_insert_L. set_solver.
  - by destruct (currentExclude st) as [e |].
Qed.

Lemma addExcludedTags_fresh_array (l : list string) (st : State) :
  ∃ a, (currentExclude (addExcludedTags l st) ≫= Exclude.tags) = Some a
       ∧ (a ∉ dom (stringArrays (heap st)))
       ∧ a ∈ dom (stringArrays (heap (addExcludedTags l st)))
       ∧ readStrings (heap (addExcludedTags l st)) a = tagList st ++ l.
Proof.
  exists (fresh (dom (stringArrays (heap st)))).
  unfold tagList, policy, addExcludedTags. heap_simpl. split_and!.
  - done.
  - apply is_fresh.
  - rewrite dom_insert_L. set_solver.
  - destruct (currentExclude st) as [e |]; simpl; [| done].
    by destruct (Exclude.tags e).
Qed.

Lemma addExcludedMethods_fresh_array (l : list string) (st : State) :
  ∃ a, (currentExclude (addExcludedMethods l st) ≫= Exclude.methods) = Some a
       ∧ (a ∉ dom (stringArrays (heap st)))
       ∧ a ∈ dom (stringArrays (heap (addExcludedMethods l st)))
       ∧ readStrings (heap (addExcludedMethods l st)) a = methodList st ++ l.
Proof.
  exists (fresh (dom (stringArrays (heap st)))).
  unfold methodList, policy, addExcludedMethods. heap_simpl. split_and!.
  - done.
  - apply is_fresh.
  - rewrite dom_insert_L. set_solver.
  - destruct (currentExclude st) as [e |]; simpl; [| done].
    by destruct (Exclude.methods e).
Qed.

(** A mutator that allocated an array did not leave the state as it was. *)
Lemma state_changed_by_paths (st st' : State) (a : loc) :
  a ∉ dom (pathArrays (heap st)) → a ∈ dom (pathArrays (heap st')) → st' ≠ st.
Proof. intros Hout Hin ->. by apply Hout. Qed.

Lemma state_changed_by_strings (st st' : State) (a : loc) :
  a ∉ dom (stringArrays (heap st)) → a ∈ dom (stringArrays (heap st')) → st' ≠ st.
Proof. intros Hout Hin ->. by apply Hout. Qed.

Lemma getExclusion_defined (st : State) :
  is_Some (fst (getExclusion st)) ↔ is_Some (currentExclude st).
Proof.
  unfold getExclusion. destruct (currentExclude st) as [e |]; simpl.
  - split; intros _; eauto.
  - done.
Qed.

Lemma add_makes_policy (st : State) :
  is_Some (currentExclude (addExcludedPaths [] st))
  ∧ is_Some (currentExclude (addExcludedTags [] st))
  ∧ is_Some (currentExclude (addExcludedMethods [] st)).
Proof.
  unfold addExcludedPaths, addExcludedTags, addExcludedMethods. heap_simpl.
  split_and!; eauto.
Qed.

Lemma addExcludedPaths_nothing (st : State) :
  addExcludedPaths [] st ≠ st
  ∧ is_Some (fst (getExclusion (addExcludedPaths [] st)))
  ∧ (currentExclude st = None →
     policy (addExcludedPaths [] st) = Some (Policy.mk (Some (ManyPaths [])) None None))
  ∧ (∃ a, (currentExclude (addExcludedPaths [] st) ≫= Exclude.paths)
          = Some (PathsArray a)
          ∧ (a ∉ dom (pathArrays (heap st)))
          ∧ readPaths (heap (addExcludedPaths [] st)) a = currentPaths st
          ∧ match (currentExclude st ≫= Exclude.paths) with
            | Some (PathsArray a0) =>
                readPaths (heap (addExcludedPaths [] st)) a = readPaths (heap st) a0
            | Some (PathsScalar p) =>
                truthyPath p = true →
                readPaths (heap (addExcludedPaths [] st)) a = [p]
            | None => readPaths (heap (addExcludedPaths [] st)) a = []
            end)
  ∧ cachedSchema (addExcludedPaths [] st) = None
  ∧ totalRoutes (addExcludedPaths [] st) = 0.
Proof.
  destruct (add_makes_policy st) as (Hp & _ & _).
  destruct (addExcludedPaths_fresh_array [] st) as (a & Ha & Hout & Hin & Hread).
  destruct (call_invalidates_or_skips (AddExcludedPaths []) st) as [Hc Hn].
  rewrite app_nil_r in Hread.
  split; [by eapply state_changed_by_paths |].
  split; [by apply getExclusion_defined |].
  split.
  { intros Hnone. unfold policy, addExcludedPaths, viewExclude. rewrite Hnone. by heap_simpl. }
  split; [| done].
  exists a. split; [done |]. split; [done |]. split; [done |].
  rewrite Hread. unfold currentPaths.
  destruct (currentExclude st ≫= Exclude.paths) as [[p | a0] |]; try done.
  by intros ->.
Qed.

Lemma addExcludedTags_nothing (st : State) :
  addExcludedTags [] st ≠ st
  ∧ is_Some (fst (getExclusion (addExcludedTags [] st)))
  ∧ (currentExclude st = None →
     policy (addExcludedTags [] st) = Some (Policy.mk None (Some []) None))
  ∧ (∃ a, (currentExclude (addExcludedTags [] st) ≫= Exclude.tags) = Some a
          ∧ (a ∉ dom (stringArrays (heap st)))
          ∧ readStrings (heap (addExcludedTags [] st)) a = tagList st)
  ∧ cachedSchema (addExcludedTags [] st) = None
  ∧ totalRoutes (addExcludedTags [] st) = 0.
Proof.
  destruct (add_makes_policy st) as (_ & Hp & _).
  destruct (addExcludedTags_fresh_array [] st) as (a & Ha & Hout & Hin & Hread).
  destruct (call_invalidates_or_skips (AddExcludedTags []) st) as [Hc Hn].
  split; [by eapply state_changed_by_strings |].
  split; [by apply getExclusion_defined |].
  split.
  { intros Hnone. unfold policy, addExcludedTags, viewExclude. rewrite Hnone. by heap_simpl. }
  split; [| done].
  exists a. split; [done |]. split; [done |]. by rewrite Hread, app_nil_r.
Qed.

Lemma addExcludedMethods_nothing (st : State) :
  addExcludedMethods [] st ≠ st
  ∧ is_Some (fst (getExclusion (addExcludedMethods [] st)))
  ∧ (currentExclude st = None →
     policy (addExcludedMethods [] st) = Some (Policy.mk None None (Some [])))
  ∧ (∃ a, (currentExclude (addExcludedMethods [] st) ≫= Exclude.methods) = Some a
          ∧ (a ∉ dom (stringArrays (heap st)))
          ∧ readStrings (heap (addExcludedMethods [] st)) a = methodList st)
  ∧ cachedSchema (addExcludedMethods [] st) = None
  ∧ totalRoutes (addExcludedMethods [] st) = 0.
Proof.
  destruct (add_makes_policy st) as (_ & _ & Hp).
  destruct (addExcludedMethods_fresh_array [] st) as (a & Ha & Hout & Hin & Hread).
  destruct (call_invalidates_or_skips (AddExcludedMethods []) st) as [Hc Hn].
  split; [by eapply state_changed_by_strings |].
  split; [by apply getExclusion_defined |].
  split.
  { intros Hnone. unfold policy, addExcludedMethods, viewExclude. rewrite Hnone. by heap_simpl. }
  split; [| done].
  exists a. split; [done |]. split; [done |]. by rewrite Hread, app_nil_r.
Qed.

(** C10.  [addExcludedPaths()], [addExcludedTags()] and
    [addExcludedMethods()] with no argument still change the plugin: the
    state is not the one before; [getExclusion()] afterwards returns an
    object, and when there was no policy the new policy is the record
    whose only field is the empty list of that dimension; the list of the
    dimension now sits in an array that did not exist before the call and
    holds what the call started from, that is the entries of the former
    array, the one entry of a former single value that is not the empty
    string, and nothing when there was no list; the cached document is
    dropped and the route counter is 0. *)
Theorem C10_add_without_arguments_is_not_a_noop (st : State) :
  (addExcludedPaths [] st ≠ st
   ∧ is_Some (fst (getExclusion (addExcludedPaths [] st)))
   ∧ (currentExclude st = None →
      policy (addExcludedPaths [] st) = Some (Policy.mk (Some (ManyPaths [])) None None))
   ∧ (∃ a, (currentExclude (addExcludedPaths [] st) ≫= Exclude.paths)
           = Some (PathsArray a)
           ∧ (a ∉ dom (pathArrays (heap st)))
           ∧ readPaths (heap (addExcludedPaths [] st)) a = currentPaths st
           ∧ match (currentExclude st ≫= Exclude.paths) with
             | Some (PathsArray a0) =>
                 readPaths (heap (addExcludedPaths [] st)) a = readPaths (heap st) a0
             | Some (PathsScalar p) =>
                 truthyPath p = true →
                 readPaths (heap (addExcludedPaths [] st)) a = [p]
             | None => readPaths (heap (addExcludedPaths [] st)) a = []
             end)
   ∧ cachedSchema (addExcludedPaths [] st) = None
   ∧ totalRoutes (addExcludedPaths [] st) = 0)
  ∧ (addExcludedTags [] st ≠ st
     ∧ is_Some (fst (getExclusion (addExcludedTags [] st)))
     ∧ (currentExclude st = None →
        policy (addExcludedTags [] st) = Some (Policy.mk None (Some []) None))
     ∧ (∃ a, (currentExclude (addExcludedTags [] st) ≫= Exclude.tags) = Some a
             ∧ (a ∉ dom (stringArrays (heap st)))
             ∧ readStrings (heap (addExcludedTags [] st)) a = tagList st)
     ∧ cachedSchema (addExcludedTags [] st) = None
     ∧ totalRoutes (addExcludedTags [] st) = 0)
  ∧ (addExcludedMethods [] st ≠ st
     ∧ is_Some (fst (getExclusion (addExcludedMethods [] st)))
     ∧ (currentExclude st = None →
        policy (addExcludedMethods [] st) = Some (Policy.mk None None (Some [])))
     ∧ (∃ a, (currentExclude (addExcludedMethods [] st) ≫= Exclude.methods) = Some a
             ∧ (a ∉ dom (stringArrays (heap st)))
             ∧ readStrings (heap (addExcludedMethods [] st)) a = methodList st)
     ∧ cachedSchema (addExcludedMethods [] st) = None
     ∧ totalRoutes (addExcludedMethods [] st) = 0).
Proof.
  exact (conj (addExcludedPaths_nothing st)
           (conj (addExcludedTags_nothing st) (addExcludedMethods_nothing st))).
Qed.

(** ** References stay allocated, and one dimension leaves the others alone *)

Lemma excludeAllocated_mono (h h' : Heap) (e : Exclude.t) :
  dom (pathArrays h) ⊆ dom (pathArrays h') →
  dom (stringArrays h) ⊆ dom (stringArrays h') →
  excludeAllocated h e → excludeAllocated h' e.
Proof.
  intros Hp Hs (H1 & H2 & H3). split_and!; intros a Ha.
  - apply Hp. by apply H1.
  - apply Hs. by apply H2.
  - apply Hs. by apply H3.
Qed.

Lemma excludeAllocated_empty (h : Heap) : excludeAllocated h emptyExclude.
Proof. split_and!; intros a Ha; discriminate. Qed.

Lemma wellFormed_current (st : State) :
  wellFormed st → excludeAllocated (heap st) (default emptyExclude (currentExclude st)).
Proof.
  intros [Hcur _]. destruct (currentExclude st) as [e |]; simpl.
  - by apply Hcur.
  - apply excludeAllocated_empty.
Qed.

Lemma wellFormed_update (st : State) (h' : Heap) (e' : Exclude.t) (n : nat)
    (c : option Document.t) :
  wellFormed st →
  dom (pathArrays (heap st)) ⊆ dom (pathArrays h') →
  dom (stringArrays (heap st)) ⊆ dom (stringArrays h') →
  objects h' = objects (heap st) →
  excludeAllocated h' e' →
  wellFormed (mkState h' (Some e') n c).
Proof.
  intros [_ Hobj] Hp Hs Ho He'. split; simpl.
  - by intros e [= <-].
  - intros o e Hlook. rewrite Ho in Hlook.
    eapply excludeAllocated_mono; [done | done |]. by eapply Hobj.
Qed.

Lemma wellFormed_invalidateCache (st : State) :
  wellFormed st → wellFormed (invalidateCache st).
Proof. by intros [H1 H2]. Qed.

(** Every mutator keeps the invariant, provided the object handed to
    [setExclusion] is one the caller really holds. *)
Lemma call_wellFormed (m : Mutator) (st : State) :
  wellFormed st →
  (∀ o, m = SetExclusion (Some o) → o ∈ dom (objects (heap st))) →
  wellFormed (call m st).
Proof.
  intros Hwf Harg. pose proof (wellFormed_current st Hwf) as (Hcp & Hct & Hcm).
  destruct m as [[o |] | vals | vals | l | l | l | l]; simpl.
  - destruct Hwf as [Hcur Hobj]. specialize (Harg o eq_refl).
    apply elem_of_dom in Harg as [e He]. split; simpl; [| done].
    intros e' [= <-]. unfold readObject. rewrite (lookup_total_correct _ _ _ He).
    by eapply Hobj.
  - destruct Hwf as [Hcur Hobj]. split; simpl; [done | done].
  - unfold addExcludedPaths. heap_simpl. try apply wellFormed_invalidateCache.
    apply (wellFormed_update st); simpl; try done.
    + rewrite dom_insert_L. set_solver.
    + split_and!; simpl; try done.
      intros a [= <-]. rewrite dom_insert_L. set_solver.
  - unfold removeExcludedPaths.
    destruct (currentExclude st) as [e |] eqn:He; simpl in *; [| done].
    destruct (Exclude.paths e) as [f |]; [| done].
    destruct (truthyPaths f); simpl; [| done]. heap_simpl.
    try apply wellFormed_invalidateCache.
    apply (wellFormed_update st); simpl; try done.
    + rewrite dom_insert_L. set_solver.
    + split_and!; simpl; try done.
      intros a [= <-]. rewrite dom_insert_L. set_solver.
  - unfold addExcludedTags. heap_simpl. try apply wellFormed_invalidateCache.
    apply (wellFormed_update st); simpl; try done.
    + rewrite dom_insert_L. set_solver.
    + split_and!; simpl.
      * done.
      * intros a [= <-]. rewrite dom_insert_L. set_solver.
      * intros a Ha. rewrite dom_insert_L. apply elem_of_union_r. by apply Hcm.
  - unfold removeExcludedTags.
    destruct (currentExclude st) as [e |] eqn:He; simpl in *; [| done].
    destruct (Exclude.tags e) as [a0 |]; [| done]. heap_simpl.
    try apply wellFormed_invalidateCache.
    apply (wellFormed_update st); simpl; try done.
    + rewrite dom_insert_L. set_solver.
    + split_and!; simpl.
      * done.
      * intros a [= <-]. rewrite dom_insert_L. set_solver.
      * intros a Ha. rewrite dom_insert_L. apply elem_of_union_r. by apply Hcm.
  - unfold addExcludedMethods. heap_simpl. try apply wellFormed_invalidateCache.
    apply (wellFormed_update st); simpl; try done.
    + rewrite dom_insert_L. set_solver.
    + split_and!; simpl.
      * done.
      * intros a Ha. rewrite dom_insert_L. apply elem_of_union_r. by apply Hct.
      * intros a [= <-]. rewrite dom_insert_L. set_solver.
  - unfold removeExcludedMethods.
    destruct (currentExclude st) as [e |] eqn:He; simpl in *; [| done].
    destruct (Exclude.methods e) as [a0 |]; [| done]. heap_simpl.
    try apply wellFormed_invalidateCache.
    apply (wellFormed_update st); simpl; try done.
    + rewrite dom_insert_L. set_solver.
    + split_and!; simpl.
      * done.
      * intros a Ha. rewrite dom_insert_L. apply elem_of_union_r. by apply Hct.
      * intros a [= <-]. rewrite dom_insert_L. set_solver.
Qed.

(** The plugin starts in a state that satisfies the invariant when the
    caller's heap does. *)
Lemma initialState_wellFormed (cfg : Config) (h : Heap) :
  (∀ o e, objects h !! o = Some e → excludeAllocated h e) →
  (∀ o, configExclude cfg = Some o → o ∈ dom (objects h)) →
  wellFormed (initialState cfg h).
Proof.
  intros Hobj Hcfg. split; simpl; [| done].
  destruct (configExclude cfg) as [o |]; simpl; [| done].
  intros e [= <-]. pose proof (Hcfg o eq_refl) as Ho.
  apply elem_of_dom in Ho as [e He].
  unfold readObject. rewrite (lookup_total_correct _ _ _ He). by eapply Hobj.
Qed.

(** Reading an allocated array is not disturbed by a later allocation. *)
Lemma lookup_total_fresh (m : gmap loc (list string)) (a : loc) (x : list string) :
  a ∈ dom m → <[fresh (dom m) := x]> m !!! a = m !!! a.
Proof.
  intros Ha. apply lookup_total_insert_ne. intros <-. by apply (is_fresh (dom m)).
Qed.

(** A call on the tag list leaves the path entries and the method list
    alone, and a call on the method list the path entries and the tags. *)
Lemma tags_calls_frame (l : list string) (st : State) :
  wellFormed st →
  (pathEntries (policy (addExcludedTags l st)) = pathEntries (policy st)
   ∧ methodList (addExcludedTags l st) = methodList st)
  ∧ (pathEntries (policy (removeExcludedTags l st)) = pathEntries (policy st)
     ∧ methodList (removeExcludedTags l st) = methodList st).
Proof.
  intros Hwf. pose proof (wellFormed_current st Hwf) as (_ & _ & Hcm).
  unfold pathEntries, methodList, policy, addExcludedTags, removeExcludedTags,
    viewExclude.
  destruct (currentExclude st) as [e |] eqn:He; simpl in *; [| by rewrite He].
  destruct (Exclude.methods e) as [am |] eqn:Hm;
    destruct (Exclude.tags e) as [a0 |] eqn:Ht;
    heap_simpl; rewrite ?He; simpl; rewrite ?Hm; simpl;
    rewrite ?lookup_total_fresh by eauto; done.
Qed.

Lemma methods_calls_frame (l : list string) (st : State) :
  wellFormed st →
  (pathEntries (policy (addExcludedMethods l st)) = pathEntries (policy st)
   ∧ tagList (addExcludedMethods l st) = tagList st)
  ∧ (pathEntries (policy (removeExcludedMethods l st)) = pathEntries (policy st)
     ∧ tagList (removeExcludedMethods l st) = tagList st).
Proof.
  intros Hwf. pose proof (wellFormed_current st Hwf) as (_ & Hct & _).
  unfold pathEntries, tagList, policy, addExcludedMethods, removeExcludedMethods,
    viewExclude.
  destruct (currentExclude st) as [e |] eqn:He; simpl in *; [| by rewrite He].
  destruct (Exclude.methods e) as [am |] eqn:Hm;
    destruct (Exclude.tags e) as [a0 |] eqn:Ht;
    heap_simpl; rewrite ?He; simpl; rewrite ?Ht; simpl;
    rewrite ?lookup_total_fresh by eauto; done.
Qed.

(** ** Filter, converter, assembler and cache *)

Section Facts.

Variable regexTest : string -> string -> string -> bool.
Variable convertRoute : Route.t -> Outcome (Json * list (string * Json)).
Variable cfg : Config.

#[local] Abbreviation accepts := (routeFilter regexTest cfg).
#[local] Abbreviation convert := (toOpenAPISchema regexTest convertRoute cfg).
#[local] Abbreviation read := (openAPISchema regexTest convertRoute cfg).
#[local] Abbreviation staticPaths := (default ∅ (Documentation.paths (documentation cfg))).
#[local] Abbreviation staticInfo := (default ∅ (Documentation.info (documentation cfg))).
#[local] Abbreviation staticSchemaMap :=
  (default ∅ (Documentation.components (documentation cfg) ≫= staticSchemas)).

(** The filter is the negation of the five tests taken together. *)
Lemma routeFilter_disjunction (r : Route.t) (p : option Policy.t) :
  accepts r p
  = negb (selfExcluded cfg r || Route.hide r || pathExcluded regexTest r p
          || tagExcluded r p || methodExcluded r p).
Proof.
  unfold routeFilter.
  by destruct (selfExcluded cfg r), (Route.hide r), (pathExcluded regexTest r p),
    (tagExcluded r p), (methodExcluded r p).
Qed.

(** The filter reads a policy through its three lists only. *)
Lemma routeFilter_ext (r : Route.t) (p q : option Policy.t) :
  pathEntries p = pathEntries q →
  p ≫= Policy.tags = q ≫= Policy.tags →
  p ≫= Policy.methods = q ≫= Policy.methods →
  accepts r p = accepts r q.
Proof.
  intros Hp Ht Hm.
  unfold routeFilter, pathExcluded, tagExcluded, methodExcluded.
  by rewrite Hp, Ht, Hm.
Qed.

Lemma operationAt_addOperation (key' m' : string) (op : Json)
    (ps : gmap string PathItem) (key m : string) :
  operationAt (addOperation key' m' op ps) key m
  = if decide (key = key' ∧ m = m') then Some op else operationAt ps key m.
Proof.
  unfold operationAt, addOperation.
  destruct (decide (key = key')) as [-> | Hk].
  - rewrite lookup_insert_eq. simpl.
    destruct (decide (m = m')) as [-> | Hm].
    + rewrite lookup_insert_eq. by rewrite decide_True.
    + rewrite lookup_insert_ne by done. rewrite decide_False by (by intros [_ ?]).
      destruct (ps !! key'); simpl; [done | apply lookup_empty].
  - rewrite lookup_insert_ne by done. by rewrite decide_False by (by intros [? _]).
Qed.

(** What the converter loop leaves in the path map: what was there, and
    an operation for every key and method of an accepted route. *)
Lemma convertRoutes_operationAt (p : option Policy.t) (routes : list Route.t) :
  ∀ acc conv,
    convertRoutes regexTest convertRoute cfg routes p acc = Returned conv →
    ∀ key m,
      is_Some (operationAt (convertedPaths conv) key m)
      ↔ is_Some (operationAt (convertedPaths acc) key m)
        ∨ ∃ r, r ∈ routes ∧ accepts r p = true
               ∧ toOpenAPIPath (Route.path r) = key
               ∧ toLowerCase (Route.method r) = m.
Proof.
  induction routes as [| r rest IH]; intros acc conv Hrun key m; simpl in Hrun.
  - injection Hrun as <-. split; [by left |].
    intros [H | (r & Hr & _)]; [done | by apply elem_of_nil in Hr].
  - destruct (accepts r p) eqn:Hacc.
    + destruct (convertRoute r) as [[op defs] |]; [| done].
      rewrite (IH _ _ Hrun key m). simpl. rewrite operationAt_addOperation.
      destruct (decide (key = toOpenAPIPath (Route.path r)
                        ∧ m = toLowerCase (Route.method r))) as [[-> ->] | Hne].
      * split; [| by left; eauto]. intros _. right. exists r.
        split; [by left | done].
      * split.
        -- intros [H | (r' & Hr' & Hok)]; [by left |].
           right. exists r'. split; [by right | done].
        -- intros [H | (r' & Hr' & Hok & Hk & Hm)]; [by left |].
           apply elem_of_cons in Hr' as [-> | Hr'].
           ++ exfalso. apply Hne. by subst.
           ++ right. exists r'. by repeat split.
    + rewrite (IH _ _ Hrun key m). split.
      * intros [H | (r' & Hr' & Hok)]; [by left |].
        right. exists r'. split; [by right | done].
      * intros [H | (r' & Hr' & Hok & Hk & Hm)]; [by left |].
        apply elem_of_cons in Hr' as [-> | Hr'].
        -- congruence.
        -- right. exists r'. by repeat split.
Qed.

Lemma toOpenAPISchema_operationAt (p : option Policy.t) (routes : list Route.t)
    (conv : Converted) (key m : string) :
  convert routes p = Returned conv →
  is_Some (operationAt (convertedPaths conv) key m)
  ↔ ∃ r, r ∈ routes ∧ accepts r p = true
         ∧ toOpenAPIPath (Route.path r) = key
         ∧ toLowerCase (Route.method r) = m.
Proof.
  intros Hrun. rewrite (convertRoutes_operationAt _ _ _ _ Hrun key m). simpl.
  split; [| by right].
  intros [H | H]; [| done].
  unfold operationAt in H. rewrite lookup_empty in H. simpl in H.
  by destruct H.
Qed.

(** An object spread [{ ...generated, ...static }], read at one key. *)
Lemma lookup_spread {A : Type} (static generated : gmap string A) (key : string) :
  (static ∪ generated) !! key
  = match static !! key with
    | Some v => Some v
    | None => generated !! key
    end.
Proof. rewrite lookup_union. by destruct (static !! key), (generated !! key). Qed.

Lemma operationAt_spread (static generated : gmap string PathItem) (key m : string) :
  operationAt (static ∪ generated) key m
  = match static !! key with
    | Some item => item !! m
    | None => operationAt generated key m
    end.
Proof. unfold operationAt. rewrite lookup_spread. by destruct (static !! key). Qed.

(** The handler on a STALE cache is the rebuild. *)
Lemma openAPISchema_stale (routes : list Route.t) (st : State) :
  cacheHit (length routes) st = None →
  read routes st = rebuild regexTest convertRoute cfg routes st.
Proof. intros Hmiss. unfold openAPISchema. by rewrite Hmiss. Qed.

Lemma cacheHit_invalidated (n : nat) (st : State) :
  cachedSchema st = None → cacheHit n st = None.
Proof. intros H. unfold cacheHit. rewrite H. by destruct (_ =? _)%nat. Qed.

Lemma cacheHit_count_changed (n : nat) (st : State) :
  totalRoutes st ≠ n → cacheHit n st = None.
Proof.
  intros H. unfold cacheHit.
  destruct (totalRoutes st =? n)%nat eqn:E; [| done].
  by apply Nat.eqb_eq in E.
Qed.

(** C1, as the code has it.  In the document a STALE read generates, an
    operation stands under a key and a method exactly when the static
    documentation declares that key and its path item has the method, or
    the static documentation does not declare the key and some registered
    route with that key and method is accepted by the Route Filter under
    the policy in force.  The filter accepts a route exactly when none of
    the five tests (reserved prefix, hide flag, path, tag, method)
    excludes it; under an absent or an empty policy only the first two can
    exclude. *)
Theorem C1_generated_paths_follow_filter_and_static_paths
    (routes : list Route.t) (st st' : State) (doc : Document.t) :
  cacheHit (length routes) st = None →
  read routes st = (Returned doc, st') →
  (∀ key m,
     is_Some (operationAt (Document.paths doc) key m)
     ↔ match staticPaths !! key with
       | Some item => is_Some (item !! m)
       | None =>
           ∃ r, r ∈ routes ∧ accepts r (policy st) = true
                ∧ toOpenAPIPath (Route.path r) = key
                ∧ toLowerCase (Route.method r) = m
       end)
  ∧ (∀ r p,
       accepts r p
       = negb (selfExcluded cfg r || Route.hide r || pathExcluded regexTest r p
               || tagExcluded r p || methodExcluded r p))
  ∧ (∀ r,
       accepts r None = negb (selfExcluded cfg r || Route.hide r)
       ∧ accepts r (Some (Policy.mk None None None))
         = negb (selfExcluded cfg r || Route.hide r)).
Proof.
  intros Hmiss Hread. rewrite (openAPISchema_stale _ _ Hmiss) in Hread.
  unfold rebuild in Hread.
  destruct (toOpenAPISchema _ _ _ _ _) as [conv |] eqn:Hconv; [| done].
  simpl in Hread. injection Hread as <- _.
  split; [| split].
  - intros key m. simpl. rewrite operationAt_spread.
    destruct (staticPaths !! key) as [item |]; [done |].
    by apply toOpenAPISchema_operationAt.
  - apply routeFilter_disjunction.
  - intros r. rewrite !routeFilter_disjunction.
    unfold pathExcluded, tagExcluded, methodExcluded. simpl.
    by rewrite !orb_false_r.
Qed.

(** C9.  In the assembled document: a field of the static [info] wins
    over the generated default of the same name, and the defaults
    ([title], [description], [version]) fill the fields the static [info]
    leaves out; the tag list is the static one when the policy has no
    [tags] list, and otherwise the static one without the tags whose name
    is excluded; a static path item wins over the converter's for the same
    key; a static component schema wins over the generated one of the same
    name. *)
Theorem C9_static_documentation_wins (conv : Converted) (st : State) :
  (∀ field,
     Document.info (fst (toFullSchema cfg conv st)) !! field
     = match staticInfo !! field with
       | Some v => Some v
       | None => defaultInfo !! field
       end)
  ∧ Document.tags (fst (toFullSchema cfg conv st))
    = match policy st ≫= Policy.tags with
      | None => Documentation.tags (documentation cfg)
      | Some excluded =>
          List.filter (fun tag => negb (includes excluded (name tag)))
            <$> Documentation.tags (documentation cfg)
      end
  ∧ (∀ key,
       Document.paths (fst (toFullSchema cfg conv st)) !! key
       = match staticPaths !! key with
         | Some item => Some item
         | None => convertedPaths conv !! key
         end)
  ∧ (∀ schemaName,
       schemas (Document.components (fst (toFullSchema cfg conv st))) !! schemaName
       = match staticSchemaMap !! schemaName with
         | Some s => Some s
         | None => convertedSchemas conv !! schemaName
         end).
Proof.
  split_and!.
  - intros field. apply lookup_spread.
  - simpl. unfold documentTags, policy.
    destruct (currentExclude st) as [e |]; simpl; [| done].
    by destruct (Exclude.tags e).
  - intros key. apply lookup_spread.
  - intros schemaName. apply lookup_spread.
Qed.

(** After a read that returned, the cache is FRESH for the count it saw. *)
Lemma openAPISchema_returned (routes : list Route.t) (st st1 : State)
    (doc : Document.t) :
  read routes st = (Returned doc, st1) →
  totalRoutes st1 = length routes ∧ cachedSchema st1 = Some doc.
Proof.
  unfold openAPISchema, cacheHit.
  destruct (totalRoutes st =? length routes)%nat eqn:Hcount.
  - destruct (cachedSchema st) as [d |] eqn:Hcached.
    + intros [= <- <-]. by apply Nat.eqb_eq in Hcount.
    + unfold rebuild. destruct (toOpenAPISchema _ _ _ _ _); [| done].
      simpl. by intros [= <- <-].
  - unfold rebuild. destruct (toOpenAPISchema _ _ _ _ _); [| done].
    simpl. by intros [= <- <-].
Qed.

(** A FRESH cache answers without any collaborator and without looking
    at the routes, whatever engine and converter the handler is given. *)
Lemma openAPISchema_hit (engine : string → string → string → bool)
    (converter : Route.t → Outcome (Json * list (string * Json)))
    (routes : list Route.t) (st : State) (doc : Document.t) :
  totalRoutes st = length routes → cachedSchema st = Some doc →
  openAPISchema engine converter cfg routes st = (Returned doc, st).
Proof.
  intros Hcount Hcached. unfold openAPISchema, cacheHit.
  by rewrite Hcount, Nat.eqb_refl, Hcached.
Qed.

(** C2, as the code has it.  Once the spec endpoint has answered with a
    document, a second read at the same route count returns that very
    document and leaves the state alone, whatever the routes now hold and
    whatever the engine and the converter would do (nothing is rebuilt);
    a read after a mutator that passed its guard ([setExclusion], the
    three additions, and a removal that found a list), or at any other
    route count, is a full build under the policy then in force; a removal
    that did not pass its guard leaves the state, the policy and hence the
    answer as they were. *)
Theorem C2_cache_hit_and_rebuild
    (engine : string → string → string → bool)
    (converter : Route.t → Outcome (Json * list (string * Json)))
    (routes routes' : list Route.t) (st st1 : State) (doc : Document.t) :
  read routes st = (Returned doc, st1) →
  length routes' = length routes →
  openAPISchema engine converter cfg routes' st1 = (Returned doc, st1)
  ∧ (∀ m others,
       passesGuard m st1 = true →
       openAPISchema engine converter cfg others (call m st1)
       = rebuild engine converter cfg others (call m st1)
       ∧ fst (openAPISchema engine converter cfg others (call m st1))
         = match toOpenAPISchema engine converter cfg others (policy (call m st1)) with
           | Thrown => Thrown
           | Returned conv => Returned (fst (toFullSchema cfg conv (call m st1)))
           end)
  ∧ (∀ others,
       length others ≠ length routes →
       openAPISchema engine converter cfg others st1
       = rebuild engine converter cfg others st1
       ∧ fst (openAPISchema engine converter cfg others st1)
         = match toOpenAPISchema engine converter cfg others (policy st1) with
           | Thrown => Thrown
           | Returned conv => Returned (fst (toFullSchema cfg conv st1))
           end)
  ∧ (∀ m,
       passesGuard m st1 = false →
       call m st1 = st1
       ∧ openAPISchema engine converter cfg routes' (call m st1) = (Returned doc, st1)).
Proof.
  intros Hread Hlen.
  destruct (openAPISchema_returned _ _ _ _ Hread) as [Hcount Hcached].
  assert (Hhit : openAPISchema engine converter cfg routes' st1 = (Returned doc, st1)).
  { apply openAPISchema_hit; [by rewrite Hlen | done]. }
  split_and!.
  - done.
  - intros m others Hguard.
    pose proof (call_invalidates_or_skips m st1) as Hinv. rewrite Hguard in Hinv.
    destruct Hinv as [Hnone _].
    assert (Hstale : openAPISchema engine converter cfg others (call m st1)
                     = rebuild engine converter cfg others (call m st1)).
    { unfold openAPISchema. by rewrite (cacheHit_invalidated _ _ Hnone). }
    split; [done |]. rewrite Hstale. unfold rebuild, policy. simpl.
    by destruct (toOpenAPISchema _ _ _ _ _).
  - intros others Hne.
    assert (Hstale : openAPISchema engine converter cfg others st1
                     = rebuild engine converter cfg others st1).
    { unfold openAPISchema. rewrite cacheHit_count_changed; [done | congruence]. }
    split; [done |]. rewrite Hstale. unfold rebuild, policy. simpl.
    by destruct (toOpenAPISchema _ _ _ _ _).
  - intros m Hguard.
    pose proof (call_invalidates_or_skips m st1) as Hinv. rewrite Hguard in Hinv.
    by rewrite Hinv.
Qed.

(** C3, as the code has it.  A read whose build throws leaves the heap,
    the policy and the cached document as they were and has already set
    the route counter to the live count.  When no document was cached
    before that read (the initial state, or any state after an
    invalidation) the cache is STALE afterwards: every later read, at any
    route count, is a full build again. *)
Theorem C3_failed_build_keeps_store_and_cached_document
    (routes : list Route.t) (st st' : State) :
  read routes st = (Thrown, st') →
  heap st' = heap st
  ∧ currentExclude st' = currentExclude st
  ∧ policy st' = policy st
  ∧ cachedSchema st' = cachedSchema st
  ∧ totalRoutes st' = length routes
  ∧ (cachedSchema st = None →
     ∀ engine converter others,
       openAPISchema engine converter cfg others st'
       = rebuild engine converter cfg others st').
Proof.
  unfold openAPISchema.
  destruct (cacheHit (length routes) st) as [d |]; [done |].
  unfold rebuild. destruct (toOpenAPISchema _ _ _ _ _); [done |].
  intros [= <-]. simpl. split_and!; try done.
  intros Hnone engine converter others.
  by rewrite cacheHit_invalidated.
Qed.

(** C4, as the code has it.  [setExclusion(obj)] keeps the three fields
    of [obj] as they are, array references included, and allocates
    nothing; assigning to the fields of [obj] afterwards does not reach
    the policy.  [getExclusion()] hands out a new object whose fields are
    those of the stored policy, the same array references again; it
    leaves policy, cache and arrays alone, and assigning to the fields of
    the returned object does not reach the policy. *)
Theorem C4_policy_copies_are_shallow (st : State) (o : loc) (e : Exclude.t) :
  (currentExclude (setExclusion (Some o) st) = Some (readObject (heap st) o)
   ∧ heap (setExclusion (Some o) st) = heap st
   ∧ policy (callerAssigns o e (setExclusion (Some o) st))
     = policy (setExclusion (Some o) st))
  ∧ match fst (getExclusion st) with
    | None => currentExclude st = None ∧ snd (getExclusion st) = st
    | Some o' =>
        (o' ∉ dom (objects (heap st)))
        ∧ Some (readObject (heap (snd (getExclusion st))) o') = currentExclude st
        ∧ currentExclude (snd (getExclusion st)) = currentExclude st
        ∧ pathArrays (heap (snd (getExclusion st))) = pathArrays (heap st)
        ∧ stringArrays (heap (snd (getExclusion st))) = stringArrays (heap st)
        ∧ cachedSchema (snd (getExclusion st)) = cachedSchema st
        ∧ totalRoutes (snd (getExclusion st)) = totalRoutes st
        ∧ policy (snd (getExclusion st)) = policy st
        ∧ policy (callerAssigns o' e (snd (getExclusion st))) = policy st
    end.
Proof.
  split; [done |].
  unfold getExclusion. destruct (currentExclude st) as [e0 |] eqn:He; simpl.
  - split_and!; try done.
    + apply is_fresh.
    + unfold readObject; simpl. by rewrite lookup_total_insert_eq.
    + unfold policy; simpl. by rewrite He.
    + unfold policy; simpl. by rewrite He.
  - done.
Qed.

(** C6, as the code has it.  When no entry of the path list in force
    equals one of the given values (strings by value, patterns by source
    and flags), and the list is not the empty-string scalar,
    [addExcludedPaths] followed by [removeExcludedPaths] with the same
    values gives back the former list of entries, leaves the tag and
    method lists alone, and the Route Filter decides every route as
    before. *)
Theorem C6_add_then_remove_paths_restores_filter
    (vals : list PathValue) (st : State) :
  (∀ p v, p ∈ pathEntries (policy st) → v ∈ vals → samePath p v = false) →
  (currentExclude st ≫= Exclude.paths) ≠ Some (PathsScalar (PathString "")) →
  pathEntries (policy (removeExcludedPaths vals (addExcludedPaths vals st)))
  = pathEntries (policy st)
  ∧ tagList (removeExcludedPaths vals (addExcludedPaths vals st)) = tagList st
  ∧ methodList (removeExcludedPaths vals (addExcludedPaths vals st)) = methodList st
  ∧ ∀ r, accepts r (policy (removeExcludedPaths vals (addExcludedPaths vals st)))
         = accepts r (policy st).
Proof.
  intros Hfresh Hscalar.
  assert (Hentries :
    pathEntries (policy (removeExcludedPaths vals (addExcludedPaths vals st)))
    = pathEntries (policy st)).
  { rewrite pathEntries_removeExcludedPaths.
    - rewrite pathEntries_addExcludedPaths by done.
      rewrite List.filter_app, filter_samePath_none by done.
      rewrite filter_samePath_self by done. apply app_nil_r.
    - unfold addExcludedPaths. by heap_simpl. }
  destruct (policy_tags_removeExcludedPaths vals (addExcludedPaths vals st))
    as [Ht2 Hm2].
  destruct (policy_tags_addExcludedPaths vals st) as [Ht1 Hm1].
  split_and!.
  - done.
  - unfold tagList. by rewrite Ht2, Ht1.
  - unfold methodList. by rewrite Hm2, Hm1.
  - intros r. apply routeFilter_ext; [done | |]; congruence.
Qed.

End Facts.

(** * Worked cases *)

Lemma sampleRead_returns :
  openAPISchema prefixEngine plainConvert sampleConfig sampleRoutes sampleState
  = (Returned sampleDocument, sampleFresh).
Proof. vm_compute. reflexivity. Defined.

(** C1 applied to the example server: [/users] is documented, and
    [/internal], which the policy excludes, is not. *)
Lemma C1_witness_example_server :
  is_Some (operationAt (Document.paths sampleDocument) "/users" "get")
  ∧ ¬ is_Some (operationAt (Document.paths sampleDocument) "/internal" "get").
Proof.
  assert (Hmiss : cacheHit (length sampleRoutes) sampleState = None)
    by (vm_compute; reflexivity).
  destruct (C1_generated_paths_follow_filter_and_static_paths prefixEngine
              plainConvert sampleConfig sampleRoutes sampleState sampleFresh
              sampleDocument Hmiss sampleRead_returns) as (Hpaths & _ & _).
  split.
  - apply Hpaths. simpl. rewrite lookup_empty.
    exists (get "/users" ["users"]). split_and!; try (vm_compute; reflexivity).
    unfold sampleRoutes. do 3 right. left.
  - intros Hsome. apply Hpaths in Hsome. simpl in Hsome.
    rewrite lookup_empty in Hsome.
    destruct Hsome as (r & Hin & Hacc & Hkey & _).
    unfold sampleRoutes in Hin.
    repeat (apply elem_of_cons in Hin as [-> | Hin]);
      try (vm_compute in Hkey; discriminate);
      try (vm_compute in Hacc; discriminate).
    by apply elem_of_nil in Hin.
Defined.

(** C1 as stated fails.  With a static documentation that declares
    [/internal] and [/health], the route [GET /internal], which the filter
    rejects, has an operation in the document, and the route
    [GET /health], which the filter accepts, has none. *)
Lemma C1_static_paths_override_filter :
  routeFilter prefixEngine staticPathsConfig (get "/internal" []) (policy sampleState)
  = false
  ∧ servedDocument
      (openAPISchema prefixEngine plainConvert staticPathsConfig sampleRoutes
         sampleState)
    ≫= (fun d => operationAt (Document.paths d) "/internal" "get")
    = Some (JString "static")
  ∧ routeFilter prefixEngine staticPathsConfig (get "/health" []) (policy sampleState)
    = true
  ∧ servedDocument
      (openAPISchema prefixEngine plainConvert staticPathsConfig sampleRoutes
         sampleState)
    ≫= (fun d => operationAt (Document.paths d) "/health" "get")
    = None.
Proof. split_and!; vm_compute; reflexivity. Qed.

(** C2 applied to the example server: the second read returns the
    document of the first even when the converter would now throw, and a
    read after [addExcludedPaths('/health')] is a rebuild. *)
Lemma C2_witness_second_read :
  openAPISchema prefixEngine failingConvert sampleConfig sampleRoutes sampleFresh
  = (Returned sampleDocument, sampleFresh)
  ∧ openAPISchema prefixEngine plainConvert sampleConfig sampleRoutes
      (addExcludedPaths [PathString "/health"] sampleFresh)
    = rebuild prefixEngine plainConvert sampleConfig sampleRoutes
        (addExcludedPaths [PathString "/health"] sampleFresh).
Proof.
  split.
  - apply (C2_cache_hit_and_rebuild prefixEngine plainConvert sampleConfig
             prefixEngine failingConvert sampleRoutes sampleRoutes sampleState
             sampleFresh sampleDocument sampleRead_returns eq_refl).
  - apply (C2_cache_hit_and_rebuild prefixEngine plainConvert sampleConfig
             prefixEngine plainConvert sampleRoutes sampleRoutes sampleState
             sampleFresh sampleDocument sampleRead_returns eq_refl
           : _ ∧ (∀ m others, _) ∧ _)
      with (m := AddExcludedPaths [PathString "/health"]).
    reflexivity.
Defined.

(** C2 as stated fails.  The example policy has no method list, so
    [removeExcludedMethods('GET')] returns at its guard; the read that
    follows answers with the cached document although a build would have
    thrown: nothing was rebuilt. *)
Lemma C2_guarded_removal_is_served_from_cache :
  removeExcludedMethods ["GET"] sampleFresh = sampleFresh
  ∧ cachedSchema sampleFresh = Some sampleDocument
  ∧ openAPISchema prefixEngine failingConvert sampleConfig sampleRoutes
      (removeExcludedMethods ["GET"] sampleFresh)
    = (Returned sampleDocument, sampleFresh)
  ∧ fst (rebuild prefixEngine failingConvert sampleConfig sampleRoutes
           (removeExcludedMethods ["GET"] sampleFresh))
    = Thrown.
Proof. split_and!; vm_compute; reflexivity. Qed.

(** C3 applied to the example server: the very first read with a
    converter that throws leaves policy and cache as they were, and the
    next read builds again. *)
Lemma C3_witness_first_read_throws :
  policy (snd (openAPISchema prefixEngine failingConvert sampleConfig sampleRoutes
                 sampleState))
  = policy sampleState
  ∧ cachedSchema (snd (openAPISchema prefixEngine failingConvert sampleConfig
                         sampleRoutes sampleState))
    = cachedSchema sampleState
  ∧ openAPISchema prefixEngine plainConvert sampleConfig sampleRoutes
      (snd (openAPISchema prefixEngine failingConvert sampleConfig sampleRoutes
              sampleState))
    = rebuild prefixEngine plainConvert sampleConfig sampleRoutes
        (snd (openAPISchema prefixEngine failingConvert sampleConfig sampleRoutes
                sampleState)).
Proof.
  assert (Hread :
    openAPISchema prefixEngine failingConvert sampleConfig sampleRoutes sampleState
    = (Thrown,
       snd (openAPISchema prefixEngine failingConvert sampleConfig sampleRoutes
              sampleState)))
    by (vm_compute; reflexivity).
  destruct (C3_failed_build_keeps_store_and_cached_document prefixEngine
              failingConvert sampleConfig sampleRoutes sampleState _ Hread)
    as (_ & _ & Hpolicy & Hcached & _ & Hnext).
  split_and!; [done | done |].
  apply Hnext. reflexivity.
Defined.

(** C3 as stated fails.  The cache holds the document of seven routes;
    an eighth route is registered and its conversion throws.  The failed
    read has stored the new count, so the cache counts as FRESH for eight
    routes, and the next read answers with the document of the seven
    routes without building (a build would throw again). *)
Lemma C3_failed_build_after_growth_serves_old_document :
  openAPISchema prefixEngine brittleConvert sampleConfig sampleRoutes sampleState
  = (Returned sampleDocument, sampleFresh)
  ∧ fst (openAPISchema prefixEngine brittleConvert sampleConfig grownRoutes sampleFresh)
    = Thrown
  ∧ cacheFresh (length grownRoutes)
      (snd (openAPISchema prefixEngine brittleConvert sampleConfig grownRoutes
              sampleFresh))
    = true
  ∧ fst (openAPISchema prefixEngine brittleConvert sampleConfig grownRoutes
           (snd (openAPISchema prefixEngine brittleConvert sampleConfig grownRoutes
                   sampleFresh)))
    = Returned sampleDocument
  ∧ fst (rebuild prefixEngine brittleConvert sampleConfig grownRoutes
           (snd (openAPISchema prefixEngine brittleConvert sampleConfig grownRoutes
                   sampleFresh)))
    = Thrown.
Proof. split_and!; vm_compute; reflexivity. Qed.

(** C4 as stated fails.  After [setExclusion(obj)] with
    [obj.tags = ['admin']] the route [/admin] is excluded; the caller then
    empties that same array in place and the filter accepts the route.
    The object [getExclusion()] returns points to the same array, so a
    caller can do the same through it. *)
Lemma C4_caller_array_is_shared_with_store :
  tagList callerState = ["admin"]
  ∧ tagList (callerWritesStrings 1%positive [] callerState) = []
  ∧ routeFilter prefixEngine sampleConfig (get "/admin" ["admin"]) (policy callerState)
    = false
  ∧ routeFilter prefixEngine sampleConfig (get "/admin" ["admin"])
      (policy (callerWritesStrings 1%positive [] callerState))
    = true
  ∧ Exclude.tags (readObject sampleHeap 1%positive) = Some 1%positive
  ∧ (Exclude.tags <$> (readObject (heap (snd (getExclusion callerState)))
                         <$> fst (getExclusion callerState)))
    = Some (Some 1%positive)
  ∧ routeFilter prefixEngine sampleConfig (get "/admin" ["admin"])
      (policy (callerWritesStrings 1%positive [] (snd (getExclusion callerState))))
    = true.
Proof. split_and!; vm_compute; reflexivity. Qed.

(** C6 applied to the example server: adding and removing a literal and
    a pattern that the list does not hold gives the list back. *)
Lemma C6_witness_round_trip :
  pathEntries
    (policy (removeExcludedPaths [PathString "/health"; PathRegExp "/users" "i"]
               (addExcludedPaths [PathString "/health"; PathRegExp "/users" "i"]
                  sampleState)))
  = pathEntries (policy sampleState).
Proof.
  apply (C6_add_then_remove_paths_restores_filter prefixEngine sampleConfig
           [PathString "/health"; PathRegExp "/users" "i"] sampleState).
  - intros p v Hp Hv.
    assert (He : pathEntries (policy sampleState) = [PathString "/internal"])
      by (vm_compute; reflexivity).
    rewrite He in Hp. apply list_elem_of_singleton in Hp as ->.
    repeat (apply elem_of_cons in Hv as [-> | Hv]); try reflexivity.
    by apply elem_of_nil in Hv.
  - vm_compute. discriminate.
Defined.

(** C6 as stated fails.  [/internal] is excluded by the example policy;
    adding it once more and removing it takes every copy out, and the
    filter then accepts the route it rejected before. *)
Lemma C6_round_trip_drops_prior_entry :
  pathEntries (policy sampleState) = [PathString "/internal"]
  ∧ pathEntries
      (policy (removeExcludedPaths [PathString "/internal"]
                 (addExcludedPaths [PathString "/internal"] sampleState)))
    = []
  ∧ routeFilter prefixEngine sampleConfig (get "/internal" []) (policy sampleState)
    = false
  ∧ routeFilter prefixEngine sampleConfig (get "/internal" [])
      (policy (removeExcludedPaths [PathString "/internal"]
                 (addExcludedPaths [PathString "/internal"] sampleState)))
    = true.
Proof. split_and!; vm_compute; reflexivity. Qed.

(** C10 applied to a plugin configured without [exclude]: after
    [addExcludedTags()] the policy is the record with an empty tag list;
    and to a plugin configured with [paths: '/x']: after
    [addExcludedPaths()] the path list is a new array that holds ['/x']. *)
Lemma C10_witness_policy_appears :
  policy (addExcludedTags [] (mkState emptyHeap None 0 None))
  = Some (Policy.mk None (Some []) None)
  ∧ ∃ a, (currentExclude (addExcludedPaths [] scalarState) ≫= Exclude.paths)
         = Some (PathsArray a)
         ∧ readPaths (heap (addExcludedPaths [] scalarState)) a = [PathString "/x"].
Proof.
  split.
  - apply (C10_add_without_arguments_is_not_a_noop (mkState emptyHeap None 0 None)).
    reflexivity.
  - destruct (C10_add_without_arguments_is_not_a_noop scalarState)
      as ((_ & _ & _ & (a & Hfield & _ & _ & Hscalar) & _) & _).
    assert (Hf : (currentExclude scalarState ≫= Exclude.paths)
                 = Some (PathsScalar (PathString "/x")))
      by (vm_compute; reflexivity).
    rewrite Hf in Hscalar.
    exists a. split; [done |]. apply Hscalar. reflexivity.
Defined.

(** * Further properties of the plugin *)

(** ** The spec URL *)

Lemma startsWith_slash_cons (s : string) : startsWith ("/" ++ s)%string "/" = true.
Proof. unfold startsWith. simpl. by destruct s. Qed.

(** X1.  The URL of the spec that the page links to always begins with a
    slash, and making a path absolute a second time changes nothing. *)
Theorem X1_absolutePath_is_absolute (cfg : Config) :
  startsWith (absolutePath cfg) "/" = true
  ∧ absolutePath
      (mkConfig (configPath cfg) (absolutePath cfg) (documentation cfg)
         (configExclude cfg))
    = absolutePath cfg.
Proof.
  assert (H : startsWith (absolutePath cfg) "/" = true).
  { unfold absolutePath.
    destruct (startsWith (configSpecPath cfg) "/") eqn:E; [done |].
    apply startsWith_slash_cons. }
  split; [done |].
  unfold absolutePath at 1. simpl. by rewrite H.
Qed.

(** ** Calls that follow one another *)

Lemma samePath_true_iff (p v : PathValue) : samePath p v = true ↔ p = v.
Proof.
  destruct p as [a | s1 f1], v as [b | s2 f2]; simpl; try (split; discriminate).
  - rewrite String.eqb_eq. split; [by intros -> | by intros [= ->]].
  - rewrite andb_true_iff, !String.eqb_eq.
    split; [by intros [-> ->] | by intros [= -> ->]].
Qed.

Lemma survives_iff (vals : list PathValue) (p : PathValue) :
  negb (existsb (fun v => samePath p v) vals) = true ↔ p ∉ vals.
Proof.
  rewrite negb_true_iff. split.
  - intros Hno Hin. apply not_true_iff_false in Hno. apply Hno.
    apply existsb_exists. exists p. split; [by apply list_elem_of_In |].
    by apply samePath_true_iff.
  - intros Hout. apply not_true_is_false.
    intros (v & Hv & Hsame)%existsb_exists.
    apply samePath_true_iff in Hsame as ->. by apply Hout, list_elem_of_In.
Qed.

Lemma filter_filter_bool {A : Type} (f g : A → bool) (l : list A) :
  List.filter g (List.filter f l) = List.filter (fun x => f x && g x) l.
Proof.
  induction l as [| x l IH]; simpl; [done |].
  destruct (f x) eqn:Hf; simpl; [| done].
  destruct (g x); by rewrite IH.
Qed.

Lemma includes_app (l1 l2 : list string) (x : string) :
  includes (l1 ++ l2) x = includes l1 x || includes l2 x.
Proof. unfold includes. apply existsb_app. Qed.

Lemma filter_includes_twice (l1 l2 l : list string) :
  List.filter (fun t => negb (includes l2 t))
    (List.filter (fun t => negb (includes l1 t)) l)
  = List.filter (fun t => negb (includes (l1 ++ l2) t)) l.
Proof.
  rewrite filter_filter_bool. apply List.filter_ext.
  intros t. by rewrite includes_app, negb_orb.
Qed.

Lemma filter_samePath_twice (v1 v2 l : list PathValue) :
  List.filter (fun p => negb (existsb (fun v => samePath p v) v2))
    (List.filter (fun p => negb (existsb (fun v => samePath p v) v1)) l)
  = List.filter (fun p => negb (existsb (fun v => samePath p v) (v1 ++ v2))) l.
Proof.
  rewrite filter_filter_bool. apply List.filter_ext.
  intros p. by rewrite existsb_app, negb_orb.
Qed.

Lemma pathEntries_addExcludedPaths_code (vals : list PathValue) (st : State) :
  pathEntries (policy (addExcludedPaths vals st)) = currentPaths st ++ vals.
Proof.
  unfold pathEntries, policy, currentPaths, addExcludedPaths. heap_simpl.
  by destruct (currentExclude st) as [e |].
Qed.

Lemma currentPaths_addExcludedPaths (vals : list PathValue) (st : State) :
  currentPaths (addExcludedPaths vals st) = currentPaths st ++ vals.
Proof.
  unfold currentPaths, addExcludedPaths. heap_simpl.
  by destruct (currentExclude st) as [e |].
Qed.

(** After a call that passed its guard the path field is an array. *)
Lemma paths_field_after_add (vals : list PathValue) (st : State) :
  (currentExclude (addExcludedPaths vals st) ≫= Exclude.paths)
  ≠ Some (PathsScalar (PathString "")).
Proof. unfold addExcludedPaths. by heap_simpl. Qed.

Lemma removeExcludedPaths_empty_scalar (vals : list PathValue) (st : State) :
  (currentExclude st ≫= Exclude.paths) = Some (PathsScalar (PathString "")) →
  removeExcludedPaths vals st = st.
Proof.
  intros H. unfold removeExcludedPaths.
  destruct (currentExclude st) as [e |]; simpl in *; [| done].
  by rewrite H.
Qed.

Lemma paths_field_after_remove (vals : list PathValue) (st : State) :
  (currentExclude st ≫= Exclude.paths) ≠ Some (PathsScalar (PathString "")) →
  (currentExclude (removeExcludedPaths vals st) ≫= Exclude.paths)
  ≠ Some (PathsScalar (PathString "")).
Proof.
  intros H. unfold removeExcludedPaths.
  destruct (currentExclude st) as [e |] eqn:He; simpl in *; [| by rewrite He].
  destruct (Exclude.paths e) as [f |] eqn:Hf; [| by rewrite He; simpl; rewrite Hf].
  destruct (truthyPaths f); simpl; [by heap_simpl | by rewrite He; simpl; rewrite Hf].
Qed.

(** X2.  Two additions in a row are one addition of the two argument
    lists put together, for paths, tags and methods alike. *)
Theorem X2_additions_concatenate (v1 v2 : list PathValue) (l1 l2 : list string)
    (st : State) :
  pathEntries (policy (addExcludedPaths v2 (addExcludedPaths v1 st)))
  = pathEntries (policy (addExcludedPaths (v1 ++ v2) st))
  ∧ tagList (addExcludedTags l2 (addExcludedTags l1 st))
    = tagList (addExcludedTags (l1 ++ l2) st)
  ∧ methodList (addExcludedMethods l2 (addExcludedMethods l1 st))
    = methodList (addExcludedMethods (l1 ++ l2) st).
Proof.
  split_and!.
  - rewrite !pathEntries_addExcludedPaths_code, currentPaths_addExcludedPaths.
    by rewrite app_assoc.
  - rewrite !tagList_addExcludedTags. by rewrite app_assoc.
  - rewrite !methodList_addExcludedMethods. by rewrite app_assoc.
Qed.

(** X3.  Two removals in a row are one removal of all the values
    together, for paths, tags and methods alike; in particular a removal
    that is repeated leaves the lists as the first one left them. *)
Theorem X3_removals_compose (v1 v2 : list PathValue) (l1 l2 : list string)
    (st : State) :
  (pathEntries (policy (removeExcludedPaths v2 (removeExcludedPaths v1 st)))
   = pathEntries (policy (removeExcludedPaths (v1 ++ v2) st))
   ∧ tagList (removeExcludedTags l2 (removeExcludedTags l1 st))
     = tagList (removeExcludedTags (l1 ++ l2) st)
   ∧ methodList (removeExcludedMethods l2 (removeExcludedMethods l1 st))
     = methodList (removeExcludedMethods (l1 ++ l2) st))
  ∧ (pathEntries (policy (removeExcludedPaths v1 (removeExcludedPaths v1 st)))
     = pathEntries (policy (removeExcludedPaths v1 st))
     ∧ tagList (removeExcludedTags l1 (removeExcludedTags l1 st))
       = tagList (removeExcludedTags l1 st)
     ∧ methodList (removeExcludedMethods l1 (removeExcludedMethods l1 st))
       = methodList (removeExcludedMethods l1 st)).
Proof.
  assert (Hpaths : ∀ a b,
    pathEntries (policy (removeExcludedPaths b (removeExcludedPaths a st)))
    = pathEntries (policy (removeExcludedPaths (a ++ b) st))).
  { intros a b.
    destruct (decide ((currentExclude st ≫= Exclude.paths)
                      = Some (PathsScalar (PathString "")))) as [Hs | Hs].
    - by repeat rewrite (removeExcludedPaths_empty_scalar _ st Hs).
    - rewrite pathEntries_removeExcludedPaths by by apply paths_field_after_remove.
      rewrite !pathEntries_removeExcludedPaths by done.
      apply filter_samePath_twice. }
  assert (Htags : ∀ a b,
    tagList (removeExcludedTags b (removeExcludedTags a st))
    = tagList (removeExcludedTags (a ++ b) st)).
  { intros a b. rewrite !tagList_removeExcludedTags. apply filter_includes_twice. }
  assert (Hmethods : ∀ a b,
    methodList (removeExcludedMethods b (removeExcludedMethods a st))
    = methodList (removeExcludedMethods (a ++ b) st)).
  { intros a b. rewrite !methodList_removeExcludedMethods.
    apply filter_includes_twice. }
  split; [by split_and! |].
  split_and!.
  - destruct (decide ((currentExclude st ≫= Exclude.paths)
                      = Some (PathsScalar (PathString "")))) as [Hs | Hs].
    + by repeat rewrite (removeExcludedPaths_empty_scalar _ st Hs).
    + rewrite pathEntries_removeExcludedPaths by by apply paths_field_after_remove.
      rewrite !pathEntries_removeExcludedPaths by done.
      rewrite filter_filter_bool. apply List.filter_ext.
      intros p. by destruct (existsb _ v1).
  - rewrite !tagList_removeExcludedTags, filter_filter_bool.
    apply List.filter_ext. intros t. by destruct (includes l1 t).
  - rewrite !methodList_removeExcludedMethods, filter_filter_bool.
    apply List.filter_ext. intros t. by destruct (includes l1 t).
Qed.

(** X4.  When the path field is not the empty-string scalar,
    [removeExcludedPaths] keeps, in their order, exactly the entries that
    are none of the given values.  A string and a pattern are never the
    same value, so removing a string leaves a pattern with that source in
    place, and the other way round. *)
Theorem X4_removeExcludedPaths_keeps_exactly_the_others
    (vals : list PathValue) (st : State) :
  (currentExclude st ≫= Exclude.paths) ≠ Some (PathsScalar (PathString "")) →
  sublist (pathEntries (policy (removeExcludedPaths vals st)))
    (pathEntries (policy st))
  ∧ ∀ p, p ∈ pathEntries (policy (removeExcludedPaths vals st))
         ↔ p ∈ pathEntries (policy st) ∧ p ∉ vals.
Proof.
  intros Hscalar. rewrite pathEntries_removeExcludedPaths by done.
  split; [apply filter_sublist |].
  intros p. by rewrite elem_of_filter_bool, survives_iff.
Qed.

(** X5.  Adding values and removing the same values afterwards leaves
    exactly the former entries that are none of those values: nothing
    that was added stays, and every former entry equal to one of the
    values goes with them.  The same holds for tags and for methods. *)
Theorem X5_add_then_remove_purges_the_values
    (vals : list PathValue) (l : list string) (st : State) :
  (pathEntries (policy (removeExcludedPaths vals (addExcludedPaths vals st)))
   = List.filter (fun p => negb (existsb (fun v => samePath p v) vals))
       (currentPaths st)
   ∧ ∀ p, p ∈ pathEntries
                (policy (removeExcludedPaths vals (addExcludedPaths vals st)))
          ↔ p ∈ currentPaths st ∧ p ∉ vals)
  ∧ (∀ t, t ∈ tagList (removeExcludedTags l (addExcludedTags l st))
          ↔ t ∈ tagList st ∧ t ∉ l)
  ∧ (∀ m, m ∈ methodList (removeExcludedMethods l (addExcludedMethods l st))
          ↔ m ∈ methodList st ∧ m ∉ l).
Proof.
  assert (Hp :
    pathEntries (policy (removeExcludedPaths vals (addExcludedPaths vals st)))
    = List.filter (fun p => negb (existsb (fun v => samePath p v) vals))
        (currentPaths st)).
  { rewrite pathEntries_removeExcludedPaths by apply paths_field_after_add.
    rewrite pathEntries_addExcludedPaths_code, List.filter_app.
    rewrite (filter_samePath_self vals vals) by done. apply app_nil_r. }
  split_and!.
  - done.
  - intros p. by rewrite Hp, elem_of_filter_bool, survives_iff.
  - intros t. rewrite tagList_removeExcludedTags, tagList_addExcludedTags.
    rewrite elem_of_removed, elem_of_app. tauto.
  - intros m. rewrite methodList_removeExcludedMethods, methodList_addExcludedMethods.
    rewrite elem_of_removed, elem_of_app. tauto.
Qed.

(** ** One dimension at a time *)

Lemma paths_calls_frame (vals : list PathValue) (st : State) :
  (tagList (addExcludedPaths vals st) = tagList st
   ∧ methodList (addExcludedPaths vals st) = methodList st)
  ∧ (tagList (removeExcludedPaths vals st) = tagList st
     ∧ methodList (removeExcludedPaths vals st) = methodList st).
Proof.
  destruct (policy_tags_addExcludedPaths vals st) as [Ht1 Hm1].
  destruct (policy_tags_removeExcludedPaths vals st) as [Ht2 Hm2].
  unfold tagList, methodList. by rewrite Ht1, Hm1, Ht2, Hm2.
Qed.

(** X6.  A call on one of the three lists leaves the other two as they
    are: path calls do not touch tags and methods, tag calls do not touch
    paths and methods, method calls do not touch paths and tags. *)
Theorem X6_calls_leave_other_dimensions_alone
    (vals : list PathValue) (l : list string) (st : State) :
  wellFormed st →
  ((tagList (addExcludedPaths vals st) = tagList st
    ∧ methodList (addExcludedPaths vals st) = methodList st)
   ∧ (tagList (removeExcludedPaths vals st) = tagList st
      ∧ methodList (removeExcludedPaths vals st) = methodList st))
  ∧ ((pathEntries (policy (addExcludedTags l st)) = pathEntries (policy st)
      ∧ methodList (addExcludedTags l st) = methodList st)
     ∧ (pathEntries (policy (removeExcludedTags l st)) = pathEntries (policy st)
        ∧ methodList (removeExcludedTags l st) = methodList st))
  ∧ ((pathEntries (policy (addExcludedMethods l st)) = pathEntries (policy st)
      ∧ tagList (addExcludedMethods l st) = tagList st)
     ∧ (pathEntries (policy (removeExcludedMethods l st)) = pathEntries (policy st)
        ∧ tagList (removeExcludedMethods l st) = tagList st)).
Proof.
  intros Hwf.
  exact (conj (paths_calls_frame vals st)
           (conj (tags_calls_frame l st Hwf) (methods_calls_frame l st Hwf))).
Qed.

(** ** What the plugin never does *)

Lemma insert_fresh_subseteq {A : Type} (m : gmap loc A) (x : A) :
  m ⊆ <[fresh (dom m) := x]> m.
Proof. apply insert_subseteq, not_elem_of_dom, is_fresh. Qed.

Lemma call_heap_grows (m : Mutator) (st : State) :
  pathArrays (heap st) ⊆ pathArrays (heap (call m st))
  ∧ stringArrays (heap st) ⊆ stringArrays (heap (call m st))
  ∧ objects (heap (call m st)) = objects (heap st).
Proof.
  destruct m as [e0 | vals | vals | l | l | l | l]; simpl.
  - done.
  - unfold addExcludedPaths. heap_simpl. split_and!; try done.
    apply insert_fresh_subseteq.
  - unfold removeExcludedPaths.
    destruct (currentExclude st) as [e |]; simpl; [| done].
    destruct (Exclude.paths e) as [f |]; simpl; [| done].
    destruct (truthyPaths f); simpl; [| done]. heap_simpl.
    split_and!; try done. apply insert_fresh_subseteq.
  - unfold addExcludedTags. heap_simpl. split_and!; try done.
    apply insert_fresh_subseteq.
  - unfold removeExcludedTags.
    destruct (currentExclude st) as [e |]; simpl; [| done].
    destruct (Exclude.tags e) as [a |]; simpl; [| done]. heap_simpl.
    split_and!; try done. apply insert_fresh_subseteq.
  - unfold addExcludedMethods. heap_simpl. split_and!; try done.
    apply insert_fresh_subseteq.
  - unfold removeExcludedMethods.
    destruct (currentExclude st) as [e |]; simpl; [| done].
    destruct (Exclude.methods e) as [a |]; simpl; [| done]. heap_simpl.
    split_and!; try done. apply insert_fresh_subseteq.
Qed.

Lemma chain_heap_grows (ms : list Mutator) :
  ∀ st,
    pathArrays (heap st) ⊆ pathArrays (heap (chain ms st))
    ∧ stringArrays (heap st) ⊆ stringArrays (heap (chain ms st))
    ∧ objects (heap (chain ms st)) = objects (heap st).
Proof.
  induction ms as [| m ms IH]; intros st; simpl; [done |].
  destruct (call_heap_grows m st) as (Hp & Hs & Ho).
  destruct (IH (call m st)) as (Hp' & Hs' & Ho').
  split_and!.
  - by etrans.
  - by etrans.
  - by rewrite Ho', Ho.
Qed.

(** X7.  No chain of mutator calls ever writes into an array or an
    object that existed before: every array that was there still holds
    what it held, and the objects of the callers are exactly as they were.
    [getExclusion] likewise leaves every array and every existing object
    as it was. *)
Theorem X7_plugin_never_writes_into_existing_arrays
    (ms : list Mutator) (st : State) :
  (∀ a l, pathArrays (heap st) !! a = Some l →
          pathArrays (heap (chain ms st)) !! a = Some l)
  ∧ (∀ a l, stringArrays (heap st) !! a = Some l →
            stringArrays (heap (chain ms st)) !! a = Some l)
  ∧ objects (heap (chain ms st)) = objects (heap st)
  ∧ pathArrays (heap (snd (getExclusion st))) = pathArrays (heap st)
  ∧ stringArrays (heap (snd (getExclusion st))) = stringArrays (heap st)
  ∧ (∀ o e, objects (heap st) !! o = Some e →
            objects (heap (snd (getExclusion st))) !! o = Some e).
Proof.
  destruct (chain_heap_grows ms st) as (Hp & Hs & Ho).
  split_and!.
  - intros a l Ha. by eapply lookup_weaken.
  - intros a l Ha. by eapply lookup_weaken.
  - done.
  - unfold getExclusion. by destruct (currentExclude st).
  - unfold getExclusion. by destruct (currentExclude st).
  - intros o e Ho'. unfold getExclusion.
    destruct (currentExclude st) as [e0 |]; simpl; [| done].
    eapply lookup_weaken; [done | apply insert_fresh_subseteq].
Qed.

(** ** Policy and cache move together *)

Lemma chain_unchanged_or_invalidated (ms : list Mutator) :
  ∀ st,
    chain ms st = st
    ∨ (cachedSchema (chain ms st) = None ∧ totalRoutes (chain ms st) = 0).
Proof.
  induction ms as [| m ms IH]; intros st; simpl; [by left |].
  pose proof (call_invalidates_or_skips m st) as Hm.
  destruct (passesGuard m st).
  - destruct Hm as [Hc Hn]. destruct (IH (call m st)) as [Heq | Hinv].
    + right. by rewrite Heq.
    + by right.
  - rewrite Hm. apply IH.
Qed.

(** X8.  Whatever chain of mutator calls runs, either the whole state is
    as before, the policy included, or the cache has been invalidated.
    So when the spec endpoint would still answer from the cache after the
    chain, the policy is the one the cached document was built under. *)
Theorem X8_policy_never_changes_under_a_fresh_cache
    (ms : list Mutator) (st : State) :
  (chain ms st = st
   ∨ (cachedSchema (chain ms st) = None ∧ totalRoutes (chain ms st) = 0))
  ∧ ∀ n, is_Some (cacheHit n (chain ms st)) →
         chain ms st = st ∧ policy (chain ms st) = policy st.
Proof.
  split; [apply chain_unchanged_or_invalidated |].
  intros n [d Hd].
  destruct (chain_unchanged_or_invalidated ms st) as [Heq | [Hc _]].
  - by rewrite Heq.
  - unfold cacheHit in Hd. rewrite Hc in Hd. by destruct (_ =? _)%nat.
Qed.

(** ** Snapshots and replacements *)

Lemma lookup_total_weaken {A : Type} `{Inhabited A} (m m' : gmap loc A) (a : loc) :
  a ∈ dom m → m ⊆ m' → m' !!! a = m !!! a.
Proof.
  intros [x Hx]%elem_of_dom Hsub.
  rewrite (lookup_total_correct _ _ _ Hx).
  by rewrite (lookup_total_correct _ _ _ (lookup_weaken _ _ _ _ Hx Hsub)).
Qed.

(** A policy object reads the same in a heap that only grew. *)
Lemma viewExclude_weaken (h h' : Heap) (e : Exclude.t) :
  excludeAllocated h e →
  pathArrays h ⊆ pathArrays h' →
  stringArrays h ⊆ stringArrays h' →
  viewExclude h' e = viewExclude h e.
Proof.
  intros (Hp & Ht & Hm) Hsp Hss. unfold viewExclude, readPaths, readStrings.
  f_equal.
  - destruct (Exclude.paths e) as [[p | a] |]; try done.
    by rewrite (lookup_total_weaken _ _ a (Hp a eq_refl) Hsp).
  - destruct (Exclude.tags e) as [a |]; simpl; [| done].
    by rewrite (lookup_total_weaken _ _ a (Ht a eq_refl) Hss).
  - destruct (Exclude.methods e) as [a |]; simpl; [| done].
    by rewrite (lookup_total_weaken _ _ a (Hm a eq_refl) Hss).
Qed.

(** X9.  The object [getExclusion] returned keeps describing the policy
    as it was at that moment, whatever mutator calls follow: the plugin
    replaces its arrays and never edits them, so a caller's snapshot does
    not change behind its back. *)
Theorem X9_getExclusion_snapshot_survives_later_calls
    (ms : list Mutator) (st : State) (o : loc) :
  wellFormed st →
  fst (getExclusion st) = Some o →
  Some (viewExclude (heap (chain ms (snd (getExclusion st))))
          (readObject (heap (chain ms (snd (getExclusion st)))) o))
  = policy st.
Proof.
  intros [Hcur _]. unfold getExclusion, policy.
  destruct (currentExclude st) as [e |] eqn:He; simpl; [| done].
  intros [= <-].
  set (st1 := mkState _ _ _ _).
  destruct (chain_heap_grows ms st1) as (Hp & Hs & Ho).
  unfold readObject. rewrite Ho. subst st1. simpl in *.
  rewrite lookup_total_insert_eq. f_equal.
  apply viewExclude_weaken; [by apply Hcur | done | done].
Qed.

(** X10.  [setExclusion] replaces the policy whole: the policy after
    [setExclusion(obj)] is what [obj] describes, whatever mutator calls
    came before it, and after [setExclusion(undefined)] there is none. *)
Theorem X10_setExclusion_forgets_earlier_calls
    (ms : list Mutator) (st : State) (o : loc) :
  wellFormed st →
  o ∈ dom (objects (heap st)) →
  policy (setExclusion (Some o) (chain ms st))
  = Some (viewExclude (heap st) (readObject (heap st) o))
  ∧ policy (setExclusion (Some o) (chain ms st)) = policy (setExclusion (Some o) st)
  ∧ policy (setExclusion None (chain ms st)) = None.
Proof.
  intros [_ Hobj] [e He]%elem_of_dom.
  destruct (chain_heap_grows ms st) as (Hp & Hs & Ho).
  assert (Hview :
    policy (setExclusion (Some o) (chain ms st))
    = Some (viewExclude (heap st) (readObject (heap st) o))).
  { unfold policy, setExclusion, readObject. simpl. rewrite Ho. f_equal.
    rewrite (lookup_total_correct _ _ _ He).
    apply viewExclude_weaken; [by eapply Hobj | done | done]. }
  split_and!; [done | by rewrite Hview | done].
Qed.

(** X11.  Two calls of [getExclusion] in a row return two different
    objects with the same fields, and leave the policy, the cached
    document and the route counter as they were. *)
Theorem X11_getExclusion_twice (st : State) :
  is_Some (currentExclude st) →
  ∃ o1 o2,
    fst (getExclusion st) = Some o1
    ∧ fst (getExclusion (snd (getExclusion st))) = Some o2
    ∧ o1 ≠ o2
    ∧ readObject (heap (snd (getExclusion (snd (getExclusion st))))) o1
      = readObject (heap (snd (getExclusion (snd (getExclusion st))))) o2
    ∧ Some (readObject (heap (snd (getExclusion (snd (getExclusion st))))) o1)
      = currentExclude st
    ∧ policy (snd (getExclusion (snd (getExclusion st)))) = policy st
    ∧ cachedSchema (snd (getExclusion (snd (getExclusion st)))) = cachedSchema st
    ∧ totalRoutes (snd (getExclusion (snd (getExclusion st)))) = totalRoutes st.
Proof.
  intros [e He]. unfold getExclusion, policy. rewrite He. simpl. rewrite ?He. simpl.
  set (o1 := fresh (dom (objects (heap st)))).
  set (o2 := fresh (dom (<[o1 := e]> (objects (heap st))))).
  assert (Hne : o1 ≠ o2).
  { intros Heq. apply (is_fresh (dom (<[o1 := e]> (objects (heap st))))).
    fold o2. rewrite <- Heq, dom_insert_L. set_solver. }
  exists o1, o2. unfold readObject; simpl.
  rewrite lookup_total_insert_eq.
  rewrite lookup_total_insert_ne by done. rewrite lookup_total_insert_eq.
  by split_and!.
Qed.

(** ** Calls on different lists commute *)

Lemma other_calls_keep_paths (m : Mutator) (d : Dimension) (st : State) :
  dimensionOf m = Some d → d ≠ Paths →
  (currentExclude (call m st) ≫= Exclude.paths) = (currentExclude st ≫= Exclude.paths)
  ∧ pathArrays (heap (call m st)) = pathArrays (heap st).
Proof.
  intros Hd Hne.
  destruct m as [e0 | vals | vals | l | l | l | l]; simpl in *; simplify_eq.
  - unfold addExcludedTags. heap_simpl. by destruct (currentExclude st).
  - unfold removeExcludedTags.
    destruct (currentExclude st) as [e |] eqn:He; simpl; [| by rewrite He].
    destruct (Exclude.tags e); simpl; [by heap_simpl | by rewrite He].
  - unfold addExcludedMethods. heap_simpl. by destruct (currentExclude st).
  - unfold removeExcludedMethods.
    destruct (currentExclude st) as [e |] eqn:He; simpl; [| by rewrite He].
    destruct (Exclude.methods e); simpl; [by heap_simpl | by rewrite He].
Qed.

(** The path entries in force are read off the path field and the arrays
    of path entries alone. *)
Lemma pathEntries_congr (s1 s2 : State) :
  (currentExclude s1 ≫= Exclude.paths) = (currentExclude s2 ≫= Exclude.paths) →
  pathArrays (heap s1) = pathArrays (heap s2) →
  pathEntries (policy s1) = pathEntries (policy s2).
Proof.
  intros Hf Ha. unfold pathEntries, policy, viewExclude, readPaths.
  destruct (currentExclude s1) as [e1 |], (currentExclude s2) as [e2 |];
    simpl in *; [| | | done].
  - by rewrite Hf, Ha.
  - by rewrite Hf.
  - by rewrite <- Hf.
Qed.

Lemma paths_call_congr (m : Mutator) (s1 s2 : State) :
  dimensionOf m = Some Paths →
  (currentExclude s1 ≫= Exclude.paths) = (currentExclude s2 ≫= Exclude.paths) →
  pathArrays (heap s1) = pathArrays (heap s2) →
  pathEntries (policy (call m s1)) = pathEntries (policy (call m s2)).
Proof.
  intros Hd Hf Ha.
  destruct m as [e0 | vals | vals | l | l | l | l]; simpl in *; simplify_eq.
  - rewrite !pathEntries_addExcludedPaths_code. unfold currentPaths, readPaths.
    by rewrite Hf, Ha.
  - destruct (decide ((currentExclude s1 ≫= Exclude.paths)
                      = Some (PathsScalar (PathString "")))) as [Hs | Hs].
    + pose proof (pathEntries_congr s1 s2 Hf Ha) as He.
      rewrite (removeExcludedPaths_empty_scalar _ s1 Hs).
      rewrite Hf in Hs. by rewrite (removeExcludedPaths_empty_scalar _ s2 Hs).
    + pose proof (pathEntries_congr s1 s2 Hf Ha) as He.
      rewrite pathEntries_removeExcludedPaths by done.
      rewrite Hf in Hs. rewrite pathEntries_removeExcludedPaths by done.
      by rewrite He.
Qed.

Lemma pathEntries_frame (m : Mutator) (d : Dimension) (st : State) :
  dimensionOf m = Some d → d ≠ Paths →
  pathEntries (policy (call m st)) = pathEntries (policy st).
Proof.
  intros Hd Hne. destruct (other_calls_keep_paths m d st Hd Hne) as [Hf Ha].
  by apply pathEntries_congr.
Qed.

Lemma tagList_frame (m : Mutator) (d : Dimension) (st : State) :
  wellFormed st → dimensionOf m = Some d → d ≠ Tags →
  tagList (call m st) = tagList st.
Proof.
  intros Hwf Hd Hne.
  destruct m as [e0 | vals | vals | l | l | l | l]; simpl in *; simplify_eq.
  - apply paths_calls_frame.
  - apply paths_calls_frame.
  - by apply methods_calls_frame.
  - by apply methods_calls_frame.
Qed.

Lemma methodList_frame (m : Mutator) (d : Dimension) (st : State) :
  wellFormed st → dimensionOf m = Some d → d ≠ Methods →
  methodList (call m st) = methodList st.
Proof.
  intros Hwf Hd Hne.
  destruct m as [e0 | vals | vals | l | l | l | l]; simpl in *; simplify_eq.
  - apply paths_calls_frame.
  - apply paths_calls_frame.
  - by apply tags_calls_frame.
  - by apply tags_calls_frame.
Qed.

Lemma tags_call_congr (m : Mutator) (s1 s2 : State) :
  dimensionOf m = Some Tags → tagList s1 = tagList s2 →
  tagList (call m s1) = tagList (call m s2).
Proof.
  intros Hd Heq.
  destruct m as [e0 | vals | vals | l | l | l | l]; simpl in *; simplify_eq.
  - by rewrite !tagList_addExcludedTags, Heq.
  - by rewrite !tagList_removeExcludedTags, Heq.
Qed.

Lemma methods_call_congr (m : Mutator) (s1 s2 : State) :
  dimensionOf m = Some Methods → methodList s1 = methodList s2 →
  methodList (call m s1) = methodList (call m s2).
Proof.
  intros Hd Heq.
  destruct m as [e0 | vals | vals | l | l | l | l]; simpl in *; simplify_eq.
  - by rewrite !methodList_addExcludedMethods, Heq.
  - by rewrite !methodList_removeExcludedMethods, Heq.
Qed.

Lemma dimension_call_wellFormed (m : Mutator) (d : Dimension) (st : State) :
  wellFormed st → dimensionOf m = Some d → wellFormed (call m st).
Proof.
  intros Hwf Hd. apply call_wellFormed; [done |].
  intros o ->. discriminate.
Qed.

(** X12.  Two calls that work on different lists can be made in either
    order: the three exclusion lists come out the same. *)
Theorem X12_calls_on_different_lists_commute
    (m1 m2 : Mutator) (d1 d2 : Dimension) (st : State) :
  wellFormed st →
  dimensionOf m1 = Some d1 → dimensionOf m2 = Some d2 → d1 ≠ d2 →
  exclusionLists (call m2 (call m1 st)) = exclusionLists (call m1 (call m2 st)).
Proof.
  intros Hwf H1 H2 Hne.
  pose proof (dimension_call_wellFormed m1 d1 st Hwf H1) as Hwf1.
  pose proof (dimension_call_wellFormed m2 d2 st Hwf H2) as Hwf2.
  unfold exclusionLists. f_equal; [f_equal |].
  - destruct (decide (d1 = Paths)) as [-> | Hp1].
    + rewrite (pathEntries_frame m2 d2) by done. symmetry.
      apply paths_call_congr; [done | |]; by apply (other_calls_keep_paths m2 d2).
    + rewrite (pathEntries_frame m1 d1 (call m2 st)) by done.
      destruct (decide (d2 = Paths)) as [-> | Hp2].
      * apply paths_call_congr; [done | |]; by apply (other_calls_keep_paths m1 d1).
      * by rewrite (pathEntries_frame m2 d2), (pathEntries_frame m1 d1),
          (pathEntries_frame m2 d2).
  - destruct (decide (d1 = Tags)) as [-> | Ht1].
    + rewrite (tagList_frame m2 d2) by done. symmetry.
      apply tags_call_congr; [done |]. by apply (tagList_frame m2 d2).
    + rewrite (tagList_frame m1 d1 (call m2 st)) by done.
      destruct (decide (d2 = Tags)) as [-> | Ht2].
      * apply tags_call_congr; [done |]. by apply (tagList_frame m1 d1).
      * by rewrite (tagList_frame m2 d2), (tagList_frame m1 d1),
          (tagList_frame m2 d2).
  - destruct (decide (d1 = Methods)) as [-> | Hm1].
    + rewrite (methodList_frame m2 d2) by done. symmetry.
      apply methods_call_congr; [done |]. by apply (methodList_frame m2 d2).
    + rewrite (methodList_frame m1 d1 (call m2 st)) by done.
      destruct (decide (d2 = Methods)) as [-> | Hm2].
      * apply methods_call_congr; [done |]. by apply (methodList_frame m1 d1).
      * by rewrite (methodList_frame m2 d2), (methodList_frame m1 d1),
          (methodList_frame m2 d2).
Qed.

(** ** Tags of the document *)

Lemma filter_all {A : Type} (f : A → bool) (l : list A) :
  (∀ x, f x = true) → List.filter f l = l.
Proof.
  intros Hall. induction l as [| x l IH]; simpl; [done |].
  by rewrite Hall, IH.
Qed.

Lemma assembledTags_tagList (cfg : Config) (conv : Converted) (st : State) :
  assembledTags cfg conv st
  = List.filter (fun tag => negb (includes (tagList st) (name tag)))
      (default [] (Documentation.tags (documentation cfg))).
Proof.
  unfold assembledTags, tagList, policy. simpl. unfold documentTags.
  destruct (currentExclude st) as [e |]; simpl.
  - destruct (Exclude.tags e) as [a |]; simpl.
    + by destruct (Documentation.tags (documentation cfg)).
    + by rewrite filter_all.
  - by rewrite filter_all.
Qed.

(** X13.  The tag list of the assembled document is the static tag list,
    in its order, without the tags whose name is excluded.  After
    [addExcludedTags(l)] the tags named in [l] are gone from it as well;
    after [removeExcludedTags(l)] the static tags named in [l] are in it
    again. *)
Theorem X13_document_tags_follow_the_tag_list
    (cfg : Config) (conv : Converted) (l : list string) (st : State) :
  sublist (assembledTags cfg conv st)
    (default [] (Documentation.tags (documentation cfg)))
  ∧ (∀ t, t ∈ assembledTags cfg conv st
          ↔ t ∈ default [] (Documentation.tags (documentation cfg))
            ∧ name t ∉ tagList st)
  ∧ (∀ t, t ∈ assembledTags cfg conv (addExcludedTags l st)
          ↔ t ∈ assembledTags cfg conv st ∧ name t ∉ l)
  ∧ (∀ t, t ∈ assembledTags cfg conv (removeExcludedTags l st)
          ↔ t ∈ default [] (Documentation.tags (documentation cfg))
            ∧ (name t ∉ tagList st ∨ name t ∈ l)).
Proof.
  rewrite !assembledTags_tagList. split_and!.
  - apply filter_sublist.
  - intros t. by rewrite elem_of_filter_bool, negb_true_iff, includes_false.
  - intros t. rewrite !elem_of_filter_bool, !negb_true_iff, !includes_false.
    rewrite tagList_addExcludedTags, elem_of_app. tauto.
  - intros t. rewrite !elem_of_filter_bool, !negb_true_iff, !includes_false.
    rewrite tagList_removeExcludedTags, elem_of_removed.
    destruct (decide (name t ∈ l)); tauto.
Qed.

(** ** The page and the cache *)

Section PageFacts.

Variable regexTest : string -> string -> string -> bool.
Variable convertRoute : Route.t -> Outcome (Json * list (string * Json)).
Variable cfg : Config.

(** X14.  The page and the spec endpoint share one cache: once the spec
    endpoint has answered with a document, the page rendered at the same
    route count embeds that document and builds nothing, whatever the
    routes hold and whatever engine and converter it is given. *)
Theorem X14_page_embeds_the_cached_document
    (engine : string → string → string → bool)
    (converter : Route.t → Outcome (Json * list (string * Json)))
    (routes routes' : list Route.t) (st st1 : State) (doc : Document.t) :
  openAPISchema regexTest convertRoute cfg routes st = (Returned doc, st1) →
  length routes' = length routes →
  embeddedSpec engine converter cfg routes' st1 = (Returned (Some doc), st1).
Proof.
  intros Hread Hlen.
  destruct (openAPISchema_returned _ _ _ _ _ _ _ Hread) as [Hcount Hcached].
  unfold embeddedSpec. by rewrite Hcount, Hlen, Nat.eqb_refl, Hcached.
Qed.

Lemma embeddedSpec_keeps_counter_and_policy (routes : list Route.t) (st : State) :
  totalRoutes (snd (embeddedSpec regexTest convertRoute cfg routes st)) = totalRoutes st
  ∧ currentExclude (snd (embeddedSpec regexTest convertRoute cfg routes st))
    = currentExclude st
  ∧ heap (snd (embeddedSpec regexTest convertRoute cfg routes st)) = heap st.
Proof.
  unfold embeddedSpec.
  destruct (totalRoutes st =? length routes)%nat; [done |].
  by destruct (toOpenAPISchema _ _ _ _ _).
Qed.

(** X15.  Rendering the page never stores a route count and never
    touches the policy.  So when the stored count differs from the live
    one, the cache is still STALE after the page was rendered: the spec
    endpoint builds again at its next read, and so does the page at its
    next rendering, which gives the same outcome and state once more. *)
Theorem X15_page_never_makes_the_cache_fresh (routes : list Route.t) (st : State) :
  totalRoutes st ≠ length routes →
  totalRoutes (snd (embeddedSpec regexTest convertRoute cfg routes st)) = totalRoutes st
  ∧ policy (snd (embeddedSpec regexTest convertRoute cfg routes st)) = policy st
  ∧ cacheHit (length routes) (snd (embeddedSpec regexTest convertRoute cfg routes st))
    = None
  ∧ openAPISchema regexTest convertRoute cfg routes
      (snd (embeddedSpec regexTest convertRoute cfg routes st))
    = rebuild regexTest convertRoute cfg routes
        (snd (embeddedSpec regexTest convertRoute cfg routes st))
  ∧ embeddedSpec regexTest convertRoute cfg routes
      (snd (embeddedSpec regexTest convertRoute cfg routes st))
    = embeddedSpec regexTest convertRoute cfg routes st.
Proof.
  intros Hne.
  destruct (embeddedSpec_keeps_counter_and_policy routes st) as (Hn & Hc & Hh).
  assert (Hmiss :
    cacheHit (length routes)
      (snd (embeddedSpec regexTest convertRoute cfg routes st)) = None).
  { apply cacheHit_count_changed. by rewrite Hn. }
  split_and!.
  - done.
  - unfold policy. by rewrite Hc, Hh.
  - done.
  - unfold openAPISchema. by rewrite Hmiss.
  - apply Nat.eqb_neq in Hne. unfold embeddedSpec. rewrite Hne.
    destruct (toOpenAPISchema _ _ _ _ (policy st)) as [conv |] eqn:Hconv; simpl.
    + rewrite Hne. unfold policy in *. simpl. by rewrite Hconv.
    + by rewrite Hne, Hconv.
Qed.

(** X16.  The page has no test for a missing document.  After a read of
    the spec endpoint whose build threw while nothing was cached, the
    stored count is the live one and no document is stored; the page
    rendered at that count then embeds nothing and does not try to build,
    whereas the spec endpoint builds again. *)
Theorem X16_page_embeds_nothing_after_a_failed_build
    (engine : string → string → string → bool)
    (converter : Route.t → Outcome (Json * list (string * Json)))
    (routes routes' : list Route.t) (st st' : State) :
  openAPISchema regexTest convertRoute cfg routes st = (Thrown, st') →
  cachedSchema st = None →
  length routes' = length routes →
  embeddedSpec engine converter cfg routes' st' = (Returned None, st')
  ∧ openAPISchema engine converter cfg routes' st'
    = rebuild engine converter cfg routes' st'.
Proof.
  intros Hread Hnone Hlen. unfold openAPISchema in Hread.
  rewrite (cacheHit_invalidated _ _ Hnone) in Hread. unfold rebuild in Hread.
  destruct (toOpenAPISchema _ _ _ _ _); [done |].
  injection Hread as <-. split.
  - unfold embeddedSpec. simpl. by rewrite Hlen, Nat.eqb_refl, Hnone.
  - unfold openAPISchema. by rewrite cacheHit_invalidated.
Qed.

End PageFacts.

(** ** Set and get *)

(** X17.  [getExclusion] after [setExclusion(obj)] returns a new object,
    not [obj] itself, with exactly the fields of [obj]; the same holds
    right after construction for the [exclude] option. *)
Theorem X17_getExclusion_returns_what_was_set (cfg : Config) (h : Heap)
    (st : State) (o : loc) :
  o ∈ dom (objects (heap st)) →
  configExclude cfg = Some o →
  o ∈ dom (objects h) →
  (∃ o', fst (getExclusion (setExclusion (Some o) st)) = Some o'
         ∧ o' ≠ o
         ∧ readObject (heap (snd (getExclusion (setExclusion (Some o) st)))) o'
           = readObject (heap st) o)
  ∧ (∃ o', fst (getExclusion (initialState cfg h)) = Some o'
           ∧ o' ≠ o
           ∧ readObject (heap (snd (getExclusion (initialState cfg h)))) o'
             = readObject h o).
Proof.
  intros Ho Hcfg Hoh. split.
  - exists (fresh (dom (objects (heap st)))). unfold getExclusion, setExclusion.
    simpl. split_and!; [done | |].
    + intros Heq. apply (is_fresh (dom (objects (heap st)))). by rewrite Heq.
    + unfold readObject at 1. simpl. by rewrite lookup_total_insert_eq.
  - exists (fresh (dom (objects h))). unfold getExclusion, initialState.
    rewrite Hcfg. simpl. split_and!; [done | |].
    + intros Heq. apply (is_fresh (dom (objects h))). by rewrite Heq.
    + unfold readObject at 1. simpl. by rewrite lookup_total_insert_eq.
Qed.

(** * Worked cases for the further properties *)

Lemma sampleHeap_contents :
  pathArrays sampleHeap = {[ 1%positive := [PathString "/internal"] ]}
  ∧ stringArrays sampleHeap = {[ 1%positive := ["admin"] ]}
  ∧ objects sampleHeap
    = {[ 1%positive := Exclude.mk (Some (PathsArray 1%positive)) (Some 1%positive) None ]}.
Proof. split_and!; vm_compute; reflexivity. Qed.

Lemma sampleState_wellFormed : wellFormed sampleState.
Proof.
  destruct sampleHeap_contents as (Hp & Hs & Ho).
  apply initialState_wellFormed.
  - intros o e Hlook. rewrite Ho in Hlook.
    apply lookup_singleton_Some in Hlook as [<- <-].
    split_and!; intros a Ha; simpl in Ha; simplify_eq.
    + rewrite Hp, dom_singleton_L. by apply elem_of_singleton.
    + rewrite Hs, dom_singleton_L. by apply elem_of_singleton.
  - intros o Hcfg. simpl in Hcfg. simplify_eq.
    rewrite Ho, dom_singleton_L. by apply elem_of_singleton.
Qed.

Lemma sampleObject_allocated : 1%positive ∈ dom (objects sampleHeap).
Proof.
  destruct sampleHeap_contents as (_ & _ & Ho).
  rewrite Ho, dom_singleton_L. by apply elem_of_singleton.
Qed.

(** X4 on the example policy: removing the pattern [/internal/] leaves
    the string ['/internal'] excluded. *)
Lemma X4_witness_pattern_does_not_remove_string :
  PathString "/internal"
  ∈ pathEntries (policy (removeExcludedPaths [PathRegExp "/internal" ""] sampleState)).
Proof.
  apply (X4_removeExcludedPaths_keeps_exactly_the_others
           [PathRegExp "/internal" ""] sampleState).
  - vm_compute. discriminate.
  - split.
    + assert (He : pathEntries (policy sampleState) = [PathString "/internal"])
        by (vm_compute; reflexivity).
      rewrite He. left.
    + intros Hin. apply list_elem_of_singleton in Hin. discriminate.
Defined.

(** X6 on the example policy. *)
Lemma X6_witness_tags_leave_methods :
  pathEntries (policy (addExcludedTags ["users"] sampleState))
  = pathEntries (policy sampleState)
  ∧ methodList (addExcludedTags ["users"] sampleState) = methodList sampleState.
Proof.
  apply (X6_calls_leave_other_dimensions_alone [] ["users"] sampleState
           sampleState_wellFormed).
Defined.

(** X9 on the example policy: the snapshot taken first still shows
    [/internal] and [admin] after both were removed. *)
Lemma X9_witness_snapshot :
  Some (viewExclude
          (heap (chain [RemoveExcludedPaths [PathString "/internal"];
                        RemoveExcludedTags ["admin"]]
                   (snd (getExclusion sampleState))))
          (readObject
             (heap (chain [RemoveExcludedPaths [PathString "/internal"];
                           RemoveExcludedTags ["admin"]]
                      (snd (getExclusion sampleState))))
             2%positive))
  = policy sampleState.
Proof.
  apply (X9_getExclusion_snapshot_survives_later_calls
           [RemoveExcludedPaths [PathString "/internal"]; RemoveExcludedTags ["admin"]]
           sampleState 2%positive sampleState_wellFormed).
  vm_compute. reflexivity.
Defined.

(** X10 on the example policy. *)
Lemma X10_witness_reset :
  policy (setExclusion (Some 1%positive)
            (chain [AddExcludedPaths [PathString "/health"];
                    RemoveExcludedTags ["admin"]] sampleState))
  = policy (setExclusion (Some 1%positive) sampleState).
Proof.
  apply (X10_setExclusion_forgets_earlier_calls
           [AddExcludedPaths [PathString "/health"]; RemoveExcludedTags ["admin"]]
           sampleState 1%positive sampleState_wellFormed sampleObject_allocated).
Defined.

(** X11 on the example policy. *)
Lemma X11_witness_two_snapshots :
  ∃ o1 o2,
    fst (getExclusion sampleState) = Some o1
    ∧ fst (getExclusion (snd (getExclusion sampleState))) = Some o2
    ∧ o1 ≠ o2.
Proof.
  destruct (X11_getExclusion_twice sampleState) as (o1 & o2 & H1 & H2 & Hne & _).
  - vm_compute. eauto.
  - by exists o1, o2.
Defined.

(** X12 on the example policy. *)
Lemma X12_witness_paths_and_tags :
  exclusionLists
    (call (RemoveExcludedTags ["admin"])
       (call (AddExcludedPaths [PathString "/health"]) sampleState))
  = exclusionLists
      (call (AddExcludedPaths [PathString "/health"])
         (call (RemoveExcludedTags ["admin"]) sampleState)).
Proof.
  apply (X12_calls_on_different_lists_commute
           (AddExcludedPaths [PathString "/health"]) (RemoveExcludedTags ["admin"])
           Paths Tags sampleState sampleState_wellFormed eq_refl eq_refl).
  discriminate.
Defined.

(** X14 on the example server. *)
Lemma X14_witness_page_after_read :
  embeddedSpec prefixEngine failingConvert sampleConfig sampleRoutes sampleFresh
  = (Returned (Some sampleDocument), sampleFresh).
Proof.
  apply (X14_page_embeds_the_cached_document prefixEngine plainConvert sampleConfig
           prefixEngine failingConvert sampleRoutes sampleRoutes sampleState
           sampleFresh sampleDocument sampleRead_returns eq_refl).
Defined.

(** X15 on the example server: the page is rendered before the spec
    endpoint was ever read. *)
Lemma X15_witness_page_first :
  cacheHit (length sampleRoutes)
    (snd (embeddedSpec prefixEngine plainConvert sampleConfig sampleRoutes sampleState))
  = None.
Proof.
  apply (X15_page_never_makes_the_cache_fresh prefixEngine plainConvert sampleConfig
           sampleRoutes sampleState).
  vm_compute. discriminate.
Defined.

(** X16 on the example server: the first read throws, the page then
    embeds nothing. *)
Lemma X16_witness_page_after_failure :
  embeddedSpec prefixEngine plainConvert sampleConfig sampleRoutes
    (snd (openAPISchema prefixEngine failingConvert sampleConfig sampleRoutes
            sampleState))
  = (Returned None,
     snd (openAPISchema prefixEngine failingConvert sampleConfig sampleRoutes
            sampleState)).
Proof.
  apply (X16_page_embeds_nothing_after_a_failed_build prefixEngine failingConvert
           sampleConfig prefixEngine plainConvert sampleRoutes sampleRoutes
           sampleState).
  - vm_compute. reflexivity.
  - reflexivity.
  - reflexivity.
Defined.

(** X17 on the example policy. *)
Lemma X17_witness_set_then_get :
  ∃ o', fst (getExclusion (setExclusion (Some 1%positive) sampleState)) = Some o'
        ∧ o' ≠ 1%positive
        ∧ readObject
            (heap (snd (getExclusion (setExclusion (Some 1%positive) sampleState))))
            o'
          = readObject (heap sampleState) 1%positive.
Proof.
  apply (X17_getExclusion_returns_what_was_set sampleConfig sampleHeap sampleState
           1%positive sampleObject_allocated eq_refl sampleObject_allocated).
Defined.
